(** * DAG publisher and deployment verifier: a shallow embedding

    Two scripts are embedded here:

    - [composer/cicd_sample/utils/add_dags_to_composer.py] (module
      [Publisher]): copy a DAG directory to a staging directory, list the
      Python files left there and upload one object per listed file;
    - [run/filesystem/e2e_test.py] (module [Verifier]): a pytest module
      with a retry-wrapped CLI helper, two generator fixtures and one test.

    Both scripts are glue around library calls.  The library calls that
    decide the behaviour ([str.replace], [fnmatch], [shutil.copytree],
    [glob.glob], [backoff.on_exception], [subprocess.run], pytest's
    generator fixtures, [urllib.request.urlopen], [bytes.decode],
    [datetime.strftime]) are modelled next to the code that calls them,
    following CPython's implementation; the outside world (network, CLI
    processes, clock, locale) is an explicit oracle. *)

From stdpp Require Import gmap strings list.
From Stdlib Require Import ZArith Ascii Permutation.

Set Warnings "-register-all".

(** ** Python strings *)

Module Py.

(** [s.startswith(p)] *)
Fixpoint startswith (p s : string) : bool :=
  match p, s with
  | EmptyString, _ => true
  | String a p', String b s' => Ascii.eqb a b && startswith p' s'
  | String _ _, EmptyString => false
  end.

(** [s.endswith(p)], by its meaning: [s] is some string followed by [p]. *)
Definition endswith (p s : string) : Prop := ∃ a, s = a +:+ p.

(** [c in s] for a single character. *)
Fixpoint has_char (c : ascii) (s : string) : bool :=
  match s with
  | EmptyString => false
  | String d s' => Ascii.eqb c d || has_char c s'
  end.

(** [str.replace] scans left to right and replaces non-overlapping
    occurrences.  [skip] is the number of characters of the occurrence
    found last that are still to be dropped. *)
Fixpoint replace_from (old new : string) (skip : nat) (s : string) : string :=
  match s with
  | EmptyString => EmptyString
  | String c s' =>
      match skip with
      | S k => replace_from old new k s'
      | O =>
          if startswith old s
          then new +:+ replace_from old new (String.length old - 1) s'
          else String c (replace_from old new 0 s')
      end
  end.

(** With an empty [old], Python puts [new] before every character and at
    the end. *)
Fixpoint replace_empty (new s : string) : string :=
  match s with
  | EmptyString => new
  | String c s' => new +:+ String c (replace_empty new s')
  end.

Definition replace (old new s : string) : string :=
  match old with
  | EmptyString => replace_empty new s
  | String _ _ => replace_from old new 0 s
  end.

(** *** [fnmatch]

    [fnmatch.translate] reads a pattern as a sequence of items: [*] (any
    run of characters), [?] (any one character), a bracket expression
    (one character of a set) and literal characters.  Matching is by
    character code, one 8-bit character at a time. *)
Inductive item : Type :=
| Star
| AnyChar
| Lit (c : ascii)
| NoChar
| OneOf (negated : bool) (singles : string) (ranges : list (ascii * ascii)).

Definition code_le (a b : ascii) : bool := (N_of_ascii a <=? N_of_ascii b)%N.

Definition first_of (s : string) : option ascii :=
  match s with
  | EmptyString => None
  | String c _ => Some c
  end.

Fixpoint last_of (s : string) : option ascii :=
  match s with
  | EmptyString => None
  | String c s' =>
      match last_of s' with
      | None => Some c
      | Some d => Some d
      end
  end.

(** [s[:-1]] and [s[:n]] *)
Fixpoint but_last (s : string) : string :=
  match s with
  | EmptyString => ""
  | String c s' =>
      match s' with
      | EmptyString => ""
      | String _ _ => String c (but_last s')
      end
  end.

Fixpoint take_chars (n : nat) (s : string) : string :=
  match n, s with
  | S k, String c s' => String c (take_chars k s')
  | _, _ => ""
  end.

(** [s.find(c, from)] *)
Fixpoint find_char (from : nat) (c : ascii) (s : string) : option nat :=
  match s with
  | EmptyString => None
  | String d s' =>
      match from with
      | S k => S <$> find_char k c s'
      | O => if Ascii.eqb d c then Some 0 else S <$> find_char 0 c s'
      end
  end.

(** The end of a bracket expression, given the pattern after its [[]: a
    [!] and then a [\]] right at the start do not close it.  The result
    is the length of what is between the brackets. *)
Definition closing (rest : string) : option nat :=
  let j := match rest with
           | String c _ => if Ascii.eqb c "!" then 1 else 0
           | EmptyString => 0
           end in
  let j := match find_char j "]" rest with
           | Some k => if Nat.eqb k j then S j else j
           | None => j
           end in
  find_char j "]" rest.

(** The chunks between the hyphens that make ranges: the first [wait]
    characters of a chunk are never such a hyphen. *)
Fixpoint chunks_from (wait : nat) (chunk : string) (s : string) : list string :=
  match s with
  | EmptyString => [chunk]
  | String c s' =>
      match wait with
      | S k => chunks_from k (chunk +:+ String c "") s'
      | O =>
          if Ascii.eqb c "-" then chunk :: chunks_from 2 "" s'
          else chunks_from 0 (chunk +:+ String c "") s'
      end
  end.

(** A hyphen at the very end is a character of the last chunk. *)
Fixpoint close_chunks (chunks : list string) : list string :=
  match chunks with
  | [] => []
  | [c] => [c]
  | c :: ((d :: more) as rest) =>
      match d, more with
      | EmptyString, [] => [c +:+ "-"]
      | _, _ => c :: close_chunks rest
      end
  end.

(** "Remove empty ranges": from the right, a range whose start is above
    its end goes away with both its ends. *)
Fixpoint drop_empty_ranges (chunks : list string) : list string :=
  match chunks with
  | [] => []
  | c :: rest =>
      match drop_empty_ranges rest with
      | [] => [c]
      | d :: more =>
          match last_of c, d with
          | Some lo, String hi d' =>
              if code_le lo hi then c :: d :: more
              else (but_last c +:+ d') :: more
          | _, _ => c :: d :: more
          end
      end
  end.

(** The single characters and the ranges of the set: between two chunks
    the last character of the one and the first of the other make a
    range. *)
Fixpoint set_of (chunk : string) (rest : list string)
  : string * list (ascii * ascii) :=
  match rest with
  | [] => (chunk, [])
  | d :: rest' =>
      match last_of chunk, d with
      | Some lo, String hi d' =>
          let '(singles, ranges) := set_of d' rest' in
          (but_last chunk +:+ singles, (lo, hi) :: ranges)
      | _, _ =>
          let '(singles, ranges) := set_of d rest' in
          (chunk +:+ singles, ranges)
      end
  end.

(** The item of a bracket expression with [stuff] between the brackets. *)
Definition bracket (stuff : string) : item :=
  let chunks :=
    if has_char "-" stuff then
      drop_empty_ranges
        (close_chunks
           (chunks_from (if startswith "!" stuff then 2 else 1) "" stuff))
    else [stuff] in
  match chunks with
  | [] => NoChar
  | first :: rest =>
      match first, rest with
      | EmptyString, [] => NoChar
      | String c EmptyString, [] =>
          if Ascii.eqb c "!" then AnyChar else OneOf false first []
      | _, _ =>
          match first with
          | String c first' =>
              if Ascii.eqb c "!"
              then let '(singles, ranges) := set_of first' rest in
                   OneOf true singles ranges
              else let '(singles, ranges) := set_of first rest in
                   OneOf false singles ranges
          | EmptyString =>
              let '(singles, ranges) := set_of first rest in
              OneOf false singles ranges
          end
      end
  end.

(** The items of a pattern; [skip] counts the characters of a bracket
    expression still to pass over. *)
Fixpoint items_from (skip : nat) (pat : string) : list item :=
  match pat with
  | EmptyString => []
  | String c rest =>
      match skip with
      | S k => items_from k rest
      | O =>
          if Ascii.eqb c "*" then Star :: items_from 0 rest
          else if Ascii.eqb c "?" then AnyChar :: items_from 0 rest
          else if Ascii.eqb c "[" then
            match closing rest with
            | Some j => bracket (take_chars j rest) :: items_from (S j) rest
            | None => Lit c :: items_from 0 rest
            end
          else Lit c :: items_from 0 rest
      end
  end.

Definition accepts (it : item) (c : ascii) : bool :=
  match it with
  | Star => true
  | AnyChar => true
  | Lit p => Ascii.eqb p c
  | NoChar => false
  | OneOf negated singles ranges =>
      xorb negated
        (has_char c singles
         || existsb (λ r, code_le r.1 c && code_le c r.2) ranges)
  end.

Fixpoint matches (its : list item) (name : string) : bool :=
  match its with
  | [] => match name with EmptyString => true | _ => false end
  | it :: its' =>
      match it with
      | Star =>
          (fix star (n : string) : bool :=
             matches its' n ||
             match n with
             | EmptyString => false
             | String _ n' => star n'
             end) name
      | _ =>
          match name with
          | EmptyString => false
          | String c name' => accepts it c && matches its' name'
          end
      end
  end.

(** [fnmatch.fnmatchcase(name, pat)]; on POSIX [fnmatch.filter] applies
    no case folding. *)
Definition fnmatch (pat name : string) : bool :=
  matches (items_from 0 pat) name.

(** [glob.has_magic] *)
Definition has_magic (s : string) : bool :=
  has_char "*" s || has_char "?" s || has_char "[" s.

(** [fnmatch.filter(names, pat)] *)
Definition fnmatch_filter (names : list string) (pat : string) : list string :=
  filter (λ nm, fnmatch pat nm) names.

(** A pattern without [*], [?] and [[]. *)
Fixpoint literal (pat : string) : bool :=
  match pat with
  | EmptyString => true
  | String p pat' =>
      negb (Ascii.eqb p "*") && negb (Ascii.eqb p "?")
      && negb (Ascii.eqb p "[") && literal pat'
  end.

End Py.

(** ** Directory trees, [shutil.copytree] and [glob.glob] *)

Module Fs.

(** A directory is the list of its entries in the order [os.scandir]
    yields them; symbolic links are not modelled. *)
Inductive node : Type :=
| File (name : string) (data : string)
| Dir (name : string) (entries : list node).

Definition node_name (n : node) : string :=
  match n with File nm _ => nm | Dir nm _ => nm end.

Definition names (d : list node) : list string := node_name <$> d.

Definition is_file (n : node) : bool :=
  match n with File _ _ => true | Dir _ _ => false end.

(** File names of a POSIX directory: not empty, no slash, and unique
    within the directory. *)
Definition valid_name (nm : string) : Prop :=
  nm ≠ "" ∧ Py.has_char "/" nm = false.

Definition valid_dir (d : list node) : Prop :=
  Forall valid_name (names d) ∧ NoDup (names d).

(** [shutil.ignore_patterns]: the names matched by some
    pattern ([set(ignored_names)], used only for membership tests). *)
Definition ignore_patterns (patterns : list string) (nms : list string)
  : list string :=
  patterns ≫= Py.fnmatch_filter nms.

(** [shutil.copytree(src, dst, ignore=..., dirs_exist_ok=True)] into an
    empty destination.  [_copytree] asks [ignore] for the ignored names of
    the directory at hand, skips the entries so named (files and
    directories alike), copies a file as it is and a directory by a
    recursive [copytree] with the same [ignore]. *)
Definition copy_unless (ignored_names : list string) (copy : node → node)
    (srcentry : node) : option node :=
  if bool_decide (node_name srcentry ∈ ignored_names) then None
  else Some (copy srcentry).

Fixpoint copy_entry (ignore : list string → list string) (srcentry : node)
  : node :=
  match srcentry with
  | File nm data => File nm data
  | Dir nm sub =>
      Dir nm (omap (copy_unless (ignore (names sub)) (copy_entry ignore)) sub)
  end.

(** The entries created under [dst], in creation order. *)
Definition copytree (ignore : list string → list string)
    (entries : list node) : list node :=
  omap (copy_unless (ignore (names entries)) (copy_entry ignore)) entries.

(** The order in which the file system lists a directory is outside the
    program's control: any rearrangement of the entries. *)
Class ScanOrder := {
  scandir : list node → list node;
  scandir_perm : ∀ d, scandir d ≡ₚ d
}.

(** [glob._ishidden] *)
Definition ishidden (path : string) : bool :=
  match path with
  | String c _ => Ascii.eqb c "."
  | EmptyString => false
  end.

(** [glob._glob1]: names starting with a dot are dropped unless the
    pattern starts with one. *)
Definition glob1 (nms : list string) (pattern : string) : list string :=
  let nms :=
    if ishidden pattern then nms
    else filter (λ x, negb (ishidden x)) nms in
  Py.fnmatch_filter nms pattern.

(** The components of a path, between the slashes. *)
Fixpoint components_from (component : string) (path : string) : list string :=
  match path with
  | EmptyString => [component]
  | String c rest =>
      if Ascii.eqb c "/" then component :: components_from "" rest
      else components_from (component +:+ String c "") rest
  end.

Definition components (path : string) : list string :=
  components_from "" path.

(** [glob] reads a directory path that holds [*], [?] or [[] as a
    pattern too, component by component ([glob._iglob]): a component
    without such a character must exist as it is, one with such a
    character selects the directories of its parent that match it.  The
    directory itself is found when every such component of its path
    matches itself. *)
Definition glob_finds (dirname : string) : bool :=
  forallb (λ c, negb (Py.has_magic c) || Py.fnmatch c c) (components dirname).

(** [glob.glob(f"{dirname}/{pattern}")] for the path [dirname] of a fresh
    directory made by [tempfile.mkdtemp] (an absolute path without a
    trailing slash, whose last component names no other directory) with
    the entries [d]: every match joined to [dirname] when [glob] finds
    the directory, and nothing otherwise. *)
Definition glob `{ScanOrder} (dirname : string) (d : list node)
    (pattern : string) : list string :=
  if glob_finds dirname
  then (λ nm, dirname +:+ "/" +:+ nm) <$> glob1 (names (scandir d)) pattern
  else [].

End Fs.

(** ** Exceptions and effects *)

Module Rt.

(** The exceptions the two scripts can meet; all of them are subclasses of
    Python's [Exception].  [LibraryError] stands for any other exception
    class a library raises, by its name. *)
Inductive exn : Type :=
| CalledProcessError (returncode : Z) (stdout stderr : option string)
| NameError (name : string)
| KeyError (key : string)
| Exception (arg : option string)
| HTTPError (code : Z)
| URLError
| UnicodeDecodeError
| AssertionError
| TypeError
| ValueError
| AttributeError
| LibraryError (name : string)
| GoogleCloudError.

Inductive outcome (A : Type) : Type :=
| Returned (a : A)
| Raised (e : exn).
Arguments Returned {A} a.
Arguments Raised {A} e.

(** A computation over a world [W] that returns or raises. *)
Definition M (W A : Type) : Type := W → W * outcome A.

Definition ret {W A} (a : A) : M W A := λ w, (w, Returned a).
Definition raise {W A} (e : exn) : M W A := λ w, (w, Raised e).
Definition bind {W A B} (m : M W A) (k : A → M W B) : M W B :=
  λ w, match m w with
       | (w', Returned a) => k a w'
       | (w', Raised e) => (w', Raised e)
       end.

(** [try: m  except Exception: h] *)
Definition try_except {W A} (m : M W A) (h : exn → M W A) : M W A :=
  λ w, match m w with
       | (w', Returned a) => (w', Returned a)
       | (w', Raised e) => h e w'
       end.

(** [for x in l: body(x)] *)
Fixpoint for_each {W A} (l : list A) (body : A → M W unit) : M W unit :=
  match l with
  | [] => ret tt
  | x :: rest => bind (body x) (λ _, for_each rest body)
  end.

Definition is_returned {A} (o : outcome A) : bool :=
  match o with Returned _ => true | Raised _ => false end.

End Rt.

#[export] Instance M_ret {W} : MRet (Rt.M W) := λ A, Rt.ret.
#[export] Instance M_bind {W} : MBind (Rt.M W) := λ A B k m, Rt.bind m k.

(** ** [add_dags_to_composer.py] *)

Module Publisher.
Import Rt Fs.

(** The object store: [objects] maps (bucket, key) to the content stored,
    [writes] lists the uploads that went through, [requests] counts the
    uploads attempted. *)
Record cloud : Type := {
  objects : gmap (string * string) string;
  writes : list (string * string * string);
  requests : nat
}.

Section publisher.
Context `{ScanOrder}.
(** [network i] tells whether the [i]-th upload request (counted from 0)
    goes through. *)
Variable network : nat → bool.

(** [bucket.blob(name).upload_from_string(data)] *)
Definition upload_from_string (bucket_name name data : string)
  : M cloud unit :=
  λ w,
    if network (requests w) then
      ({| objects := <[(bucket_name, name) := data]> (objects w);
          writes := writes w ++ [(bucket_name, name, data)];
          requests := S (requests w) |}, Returned tt)
    else
      ({| objects := objects w;
          writes := writes w;
          requests := S (requests w) |}, Raised GoogleCloudError).

(** [temp_dir] is the path [tempfile.mkdtemp()] returned and
    [dags_directory] the entries of the source directory. *)
Definition _create_dags_list (temp_dir : string)
    (dags_directory : list node) : string * list string :=
  let files_to_ignore := ignore_patterns ["__init__.py"; "*_test.py"] in
  let staged := copytree files_to_ignore dags_directory in
  let dags := glob temp_dir staged "*.py" in
  (temp_dir, dags).

(** The body of the [for dag in dags] loop. *)
Definition upload_dag (temp_dir bucket_name dag : string) : M cloud unit :=
  let dag := Py.replace (temp_dir +:+ "/") "" dag in
  upload_from_string bucket_name dag dag.

(** The [print] calls are left out: they do not touch the store. *)
Definition upload_dags_to_composer (temp_dir : string)
    (dags_directory : list node) (bucket_name : string) : M cloud unit :=
  let '(temp_dir, dags) := _create_dags_list temp_dir dags_directory in
  for_each dags (upload_dag temp_dir bucket_name).

(** The loop, seen from the keys it computes. *)
Definition upload_keys (bucket_name : string) (keys : list string)
  : M cloud unit :=
  for_each keys (λ key, upload_from_string bucket_name key key).

End publisher.

(** The object key the loop computes from a staged path. *)
Definition key_of (temp_dir dag : string) : string :=
  Py.replace (temp_dir +:+ "/") "" dag.

(** What one successful upload of [key] leaves in the list of writes. *)
Definition write_of (bucket_name key : string) : string * string * string :=
  (bucket_name, key, key).

(** The vocabulary of the specification. *)

(** A name is excluded when it is the package marker or ends in the test
    suffix. *)
Definition package_marker (nm : string) : Prop := nm = "__init__.py".
Definition test_suffixed (nm : string) : Prop := Py.endswith "_test.py" nm.
Definition excluded (nm : string) : Prop :=
  package_marker nm ∨ test_suffixed nm.

(** The same, as the two patterns of the program decide it. *)
Definition matches_exclusion (nm : string) : bool :=
  Py.fnmatch "__init__.py" nm || Py.fnmatch "*_test.py" nm.

(** A name the listing pattern selects: not hidden, matching the pattern. *)
Definition matches_listing (nm : string) : bool :=
  negb (ishidden nm) && Py.fnmatch "*.py" nm.

(** "N files of which M match an exclusion pattern": the regular files
    directly in the directory, and those among them with an excluded
    name. *)
Definition file_count (d : list node) : nat :=
  length (filter (λ e, is_file e) d).
Definition excluded_file_count (d : list node) : nat :=
  length (filter (λ e, is_file e && matches_exclusion (node_name e)) d).

(** The entries the listing pattern selects, and those among them with
    an excluded name. *)
Definition listed_count (d : list node) : nat :=
  length (filter (λ e, matches_listing (node_name e)) d).
Definition excluded_listed_count (d : list node) : nat :=
  length (filter (λ e, matches_listing (node_name e)
                       && matches_exclusion (node_name e)) d).

(** The store after one write per key of [keys], in order. *)
Definition store_all (bucket_name : string) (keys : list string)
    (m : gmap (string * string) string) : gmap (string * string) string :=
  foldl (λ m key, <[(bucket_name, key) := key]> m) m keys.

(** Sample inputs: a DAG directory, a staging path and an empty store. *)
Definition sample_dir : list node :=
  [File "etl.py" "from airflow import DAG";
   File "__init__.py" "";
   File "etl_test.py" "import etl";
   File "README.md" "DAGs of the data team";
   Dir "sql" [File "load.sql" "select 1"]].

Definition sample_temp_dir : string := "/tmp/tmpk3v9x0qz".

Definition empty_cloud : cloud :=
  {| objects := ∅; writes := []; requests := 0 |}.

(** Two listing orders: the order of creation and its reverse. *)
#[export] Instance creation_order : ScanOrder :=
  {| scandir := λ d, d; scandir_perm := λ d, reflexivity d |}.

Definition reverse_order : ScanOrder :=
  {| scandir := λ d, rev d; scandir_perm := λ d, Permutation_sym (Permutation_rev d) |}.

End Publisher.

(** ** [e2e_test.py] *)

Module Verifier.
Import Rt.

(** *** The outside world *)

(** A process is started from a shell line ([shell=True]) or from an
    argument vector. *)
Inductive command : Type :=
| Shell (line : string)
| Argv (args : list string).

(** What a finished process leaves: exit status, standard output and
    standard error. *)
Record finished : Type := {
  exit_status : Z;
  out : string;
  err : string
}.

(** [urllib.request.Request]: without [data] the method is [GET]. *)
Record Request : Type := {
  full_url : string;
  headers : list (string * string);
  data : option string
}.

Definition get_method (req : Request) : string :=
  match data req with None => "GET" | Some _ => "POST" end.

(** [datetime.datetime] *)
Record datetime : Type := {
  year : Z; month : Z; day : Z;
  hour : Z; minute : Z; second : Z; microsecond : Z
}.

(** What a run has done so far: the processes started and the requests
    handed to [urlopen], oldest first. *)
Record world : Type := {
  processes : list command;
  requests : list Request
}.

(** *** Library calls *)

(** [subprocess.CompletedProcess]; a stream that was not captured is
    [None]. *)
Record CompletedProcess : Type := {
  returncode : Z;
  stdout : option string;
  stderr : option string
}.

Definition captured (capture : bool) (s : string) : option string :=
  if capture then Some s else None.

(** The names bound at module level by the [import] statements, the two
    assignments and the four [def]s of the file. *)
Definition module_globals : list string :=
  ["backoff"; "datetime"; "os"; "subprocess"; "request"; "uuid"; "pytest";
   "SUFFIX"; "PROJECT";
   "gcloud_cli"; "deployed_service"; "service_url_auth_token";
   "test_end_to_end"].

(** [datetime._DAYS_BEFORE_MONTH], [_is_leap], [_days_before_year],
    [_days_before_month], [_ymd2ord] and [date.weekday] (Monday is 0). *)
Definition _DAYS_BEFORE_MONTH : list Z :=
  [-1; 0; 31; 59; 90; 120; 151; 181; 212; 243; 273; 304; 334]%Z.

Definition _is_leap (y : Z) : bool :=
  ((y mod 4 =? 0) && (negb (y mod 100 =? 0) || (y mod 400 =? 0)))%Z.

Definition _days_before_year (y : Z) : Z :=
  (let y := y - 1 in y * 365 + y / 4 - y / 100 + y / 400)%Z.

Definition _days_before_month (y m : Z) : Z :=
  (nth (Z.to_nat m) _DAYS_BEFORE_MONTH 0
   + if (2 <? m) && _is_leap y then 1 else 0)%Z.

Definition _ymd2ord (y m d : Z) : Z :=
  (_days_before_year y + _days_before_month y m + d)%Z.

Definition weekday (dt : datetime) : Z :=
  ((_ymd2ord (year dt) (month dt) (day dt) + 6) mod 7)%Z.

(** The abbreviated names of the C locale, Monday and January first. *)
Definition day_abbr : list string :=
  ["Mon"; "Tue"; "Wed"; "Thu"; "Fri"; "Sat"; "Sun"].

Definition month_abbr : list string :=
  ["Jan"; "Feb"; "Mar"; "Apr"; "May"; "Jun";
   "Jul"; "Aug"; "Sep"; "Oct"; "Nov"; "Dec"].

Definition digit (n : Z) : ascii := ascii_of_N (48 + Z.to_N n).

(** A number below 100 on two digits. *)
Definition two_digits (n : Z) : string :=
  String (digit (n / 10)) (String (digit (n mod 10)) "").

(** Python [str]: a sequence of code points. *)
Definition str : Type := list N.

Definition str_of (s : string) : str := N_of_ascii <$> String.list_ascii_of_string s.

(** The [LC_TIME] locale of the process: the abbreviated names of the
    days (Monday first) and of the months.  Which locale is in effect is
    decided outside the script, by the environment variables and the
    interpreter's start-up. *)
Record locale : Type := {
  abday : list str;
  abmon : list str
}.

Definition C_locale : locale :=
  {| abday := str_of <$> day_abbr; abmon := str_of <$> month_abbr |}.

(** One [strftime] directive, for the four the test uses: [%a] and [%b]
    take the names of the locale, [%d] and [%H] are numbers on two
    digits; any other character after [%] is kept as it is. *)
Definition directive (l : locale) (c : ascii) (dt : datetime) : str :=
  if Ascii.eqb c "a" then nth (Z.to_nat (weekday dt)) (abday l) []
  else if Ascii.eqb c "b" then nth (Z.to_nat (month dt - 1)) (abmon l) []
  else if Ascii.eqb c "d" then str_of (two_digits (day dt))
  else if Ascii.eqb c "H" then str_of (two_digits (hour dt))
  else str_of (String "%" (String c "")).

(** [dt.strftime(fmt)], which is also [format(dt, fmt)]. *)
Fixpoint strftime (l : locale) (fmt : string) (dt : datetime) : str :=
  match fmt with
  | EmptyString => []
  | String c rest =>
      if Ascii.eqb c "%" then
        match rest with
        | EmptyString => str_of "%"
        | String f rest' => directive l f dt ++ strftime l rest' dt
        end
      else N_of_ascii c :: strftime l rest dt
  end.

(** [prefix.startswith] and [needle in text] on [str]. *)
Fixpoint str_startswith (p s : str) : bool :=
  match p, s with
  | [], _ => true
  | a :: p', b :: s' => (a =? b)%N && str_startswith p' s'
  | _ :: _, [] => false
  end.

Fixpoint contains (needle text : str) : bool :=
  str_startswith needle text ||
  match text with
  | [] => false
  | _ :: text' => contains needle text'
  end.

(** [bytes.decode()]: strict UTF-8.  A byte sequence that is not
    well-formed (stray or missing continuation byte, overlong form,
    surrogate, code point above U+10FFFF) has no decoding. *)
Definition continuation (b : N) : bool := ((128 <=? b) && (b <=? 191))%N.

Definition second_of_three (b0 b1 : N) : bool :=
  (if b0 =? 224 then (160 <=? b1) && (b1 <=? 191)
   else if b0 =? 237 then (128 <=? b1) && (b1 <=? 159)
   else continuation b1)%N.

Definition second_of_four (b0 b1 : N) : bool :=
  (if b0 =? 240 then (144 <=? b1) && (b1 <=? 191)
   else if b0 =? 244 then (128 <=? b1) && (b1 <=? 143)
   else continuation b1)%N.

Fixpoint utf8_decode (bs : list N) : option str :=
  match bs with
  | [] => Some []
  | b0 :: r0 =>
      if (b0 <? 128)%N then cons b0 <$> utf8_decode r0
      else
        match r0 with
        | [] => None
        | b1 :: r1 =>
            if ((194 <=? b0) && (b0 <=? 223))%N then
              if continuation b1
              then cons ((b0 - 192) * 64 + (b1 - 128))%N <$> utf8_decode r1
              else None
            else
              match r1 with
              | [] => None
              | b2 :: r2 =>
                  if ((224 <=? b0) && (b0 <=? 239))%N then
                    if second_of_three b0 b1 && continuation b2
                    then cons ((b0 - 224) * 4096 + (b1 - 128) * 64
                               + (b2 - 128))%N <$> utf8_decode r2
                    else None
                  else
                    match r2 with
                    | [] => None
                    | b3 :: r3 =>
                        if ((240 <=? b0) && (b0 <=? 244))%N
                           && second_of_four b0 b1
                           && continuation b2 && continuation b3
                        then cons ((b0 - 240) * 262144 + (b1 - 128) * 4096
                                   + (b2 - 128) * 64 + (b3 - 128))%N
                               <$> utf8_decode r3
                        else None
                    end
              end
        end
  end.

Definition decode (body : string) : option str :=
  utf8_decode (N_of_ascii <$> String.list_ascii_of_string body).

(** [bytes.strip()]: ASCII white space removed at both ends. *)
Definition is_space (c : ascii) : bool :=
  let n := N_of_ascii c in ((n =? 32) || ((9 <=? n) && (n <=? 13)))%N.

Fixpoint lstrip (s : string) : string :=
  match s with
  | EmptyString => ""
  | String c s' => if is_space c then lstrip s' else s
  end.

Fixpoint rstrip (s : string) : string :=
  match s with
  | EmptyString => ""
  | String c s' =>
      match rstrip s' with
      | EmptyString => if is_space c then "" else String c ""
      | r => String c r
      end
  end.

Definition strip (s : string) : string := rstrip (lstrip s).

(** The shell line [gcloud_cli] builds from its argument. *)
Definition cli_line (options : string) : command :=
  Shell ("gcloud " +:+ options +:+ " --quiet --format=json").

(** *** The URL of a request

    [urllib.request.Request] unwraps the URL ([urllib.parse.unwrap]),
    cuts the fragment ([_splittag]) and looks for a scheme
    ([_splittype]); it raises [ValueError] when there is none. *)

(** The text a byte string stands for; bytes that are not UTF-8 are read
    one character each. *)
Definition text_of (s : string) : str :=
  match decode s with
  | Some text => text
  | None => str_of s
  end.

(** [str.isspace] for one character. *)
Definition isspace (c : N) : bool :=
  ((9 <=? c) && (c <=? 13) || (28 <=? c) && (c <=? 32)
   || (c =? 133) || (c =? 160) || (c =? 5760)
   || (8192 <=? c) && (c <=? 8202)
   || (c =? 8232) || (c =? 8233) || (c =? 8239) || (c =? 8287)
   || (c =? 12288))%N.

Fixpoint str_lstrip (s : str) : str :=
  match s with
  | [] => []
  | c :: s' => if isspace c then str_lstrip s' else s
  end.

Fixpoint str_rstrip (s : str) : str :=
  match s with
  | [] => []
  | c :: s' =>
      match str_rstrip s' with
      | [] => if isspace c then [] else [c]
      | r => c :: r
      end
  end.

(** [str.strip()] *)
Definition str_strip (s : str) : str := str_rstrip (str_lstrip s).

(** [urllib.parse.unwrap] *)
Definition unwrap (url : str) : str :=
  let url := str_strip url in
  let url :=
    if bool_decide (head url = Some 60%N ∧ last url = Some 62%N)
    then str_strip (removelast (tail url)) else url in
  if str_startswith (str_of "URL:") url then str_strip (drop 4 url) else url.

(** [url.rpartition('#')[0]] when there is a [#], else [url]. *)
Fixpoint before_last_hash (url : str) : option str :=
  match url with
  | [] => None
  | c :: url' =>
      match before_last_hash url' with
      | Some path => Some (c :: path)
      | None => if (c =? 35)%N then Some [] else None
      end
  end.

Definition without_fragment (url : str) : str :=
  default url (before_last_hash url).

(** Whether [([^/:]+):] matches at the start: the first slash or colon is
    a colon, and not the first character. *)
Fixpoint colon_first (seen : bool) (url : str) : bool :=
  match url with
  | [] => false
  | c :: url' =>
      if (c =? 58)%N then seen
      else if (c =? 47)%N then false
      else colon_first true url'
  end.

Definition has_scheme (url : string) : bool :=
  colon_first false (without_fragment (unwrap (text_of url))).

(** *** The environment of a run *)

(** How a call of [urlopen] ends: with a response, of which the test
    reads the status (absent for a response that is not HTTP) and then
    the body, or with an exception. *)
Inductive exchange : Type :=
| Responded (status : option Z) (read : outcome string)
| Failed (e : exn).

(** The environment: how the [i]-th process started ends; which URLs
    [urllib.request.Request] takes (never one without a scheme; what else
    it refuses depends on the library) and how the [i]-th call of
    [urlopen] ends; the clock and the locale; the process environment and
    the two module constants ([SUFFIX] is a fresh UUID in hex, [PROJECT]
    is read from the process environment at import). *)
Record environment : Type := {
  spawn : nat → command → finished;
  takes_url : string → bool;
  takes_url_scheme : ∀ url, takes_url url = true → has_scheme url = true;
  serve : nat → Request → exchange;
  utcnow : datetime;
  LC_TIME : locale;
  environ : string → option string;
  SUFFIX : string;
  PROJECT : string
}.

(** *** The module *)

Section run.
Variable E : environment.
(** The parsed form of a JSON document and the parser, [json.loads]. *)
Variable value : Type.
Variable json_loads : string → option value.

(** [subprocess.run(cmd, ..., check=check)]: with [check] a non-zero
    exit status raises [CalledProcessError], which carries the
    captured streams. *)
Definition subprocess_run (cmd : command)
    (capture_stdout capture_stderr check : bool) : M world CompletedProcess :=
  λ w,
    let p := spawn E (length (processes w)) cmd in
    let w' := {| processes := processes w ++ [cmd];
                 requests := requests w |} in
    let o := captured capture_stdout (out p) in
    let e := captured capture_stderr (err p) in
    if check && negb (exit_status p =? 0)%Z
    then (w', Raised (CalledProcessError (exit_status p) o e))
    else (w', Returned {| returncode := exit_status p;
                          stdout := o; stderr := e |}).

(** [subprocess.check_call(args)] *)
Definition check_call (args : list string) : M world unit :=
  _ ← subprocess_run (Argv args) false false true; mret tt.

(** [os.environ[key]] *)
Definition getenv (key : string) : M world string :=
  match environ E key with
  | Some v => mret v
  | None => raise (KeyError key)
  end.

(** Evaluating a global name in the module. *)
Definition load_global (name : string) : M world unit :=
  if bool_decide (name ∈ module_globals) then mret tt
  else raise (NameError name).

(** [json.loads(s)], once the name [json] is resolved. *)
Definition loads (s : option string) : M world value :=
  match s with
  | None => raise TypeError
  | Some s =>
      match json_loads s with
      | Some v => mret v
      | None => raise ValueError
      end
  end.

(** [backoff.on_exception(backoff.expo, Exception, max_tries=n)] for
    [n >= 1]: call the target; when it raises and tries remain, sleep
    and call again; when it raises on the last try, raise that
    exception.  [tries_left] is [max_tries - tries]. *)
Fixpoint retry {A} (target : M world A) (tries_left : nat) : M world A :=
  λ w,
    match target w with
    | (w', Returned a) => (w', Returned a)
    | (w', Raised e) =>
        match tries_left with
        | O => (w', Raised e)
        | S n => retry target n w'
        end
    end.

Definition on_exception {A} (max_tries : nat) (target : M world A)
  : M world A :=
  retry target (max_tries - 1).

(** The body of [gcloud_cli].  The [try] block either returns from the
    function ([Some entries]) or, through its handler, falls through to
    the [raise] after it ([None]); the two [print] calls are left out. *)
Definition gcloud_cli_body (command : string) : M world value :=
  output ← subprocess_run (cli_line command) true true true;
  returned ← try_except
               (_ ← load_global "json";
                entries ← loads (stdout output);
                mret (Some entries))
               (λ _, mret None);
  match returned with
  | Some entries => mret entries
  | None => raise (Exception (stderr output))
  end.

Definition gcloud_cli (command : string) : M world value :=
  on_exception 3 (gcloud_cli_body command).

(** A generator fixture: the code before the [yield], which produces
    the fixture value from the values of the fixtures it requests, and
    the code after it. *)
Record fixture (A B : Type) : Type := {
  before_yield : A → M world B;
  after_yield : B → M world unit
}.
Arguments before_yield {A B} _ _.
Arguments after_yield {A B} _ _.

Definition delete_command (service_name : string) : list string :=
  ["gcloud"; "run"; "services"; "delete"; service_name;
   "--region=us-central1"; "--platform=managed"; "--quiet"; "--async";
   "--project"; PROJECT E].

Definition deployed_service : fixture unit string := {|
  before_yield := λ _,
    let service_name := "filesystem-" +:+ SUFFIX E in
    connector ← getenv "CONNECTOR";
    ip_address ← getenv "IP_ADDRESS";
    _ ← check_call
          ["gcloud"; "builds"; "submit"; "--config"; "cloudbuild.yaml";
           "--project"; PROJECT E;
           "--substitutions=_SERVICE_NAME=" +:+ service_name
           +:+ ",_FILESTORE_IP_ADDRESS=" +:+ ip_address
           +:+ ",_CONNECTOR=" +:+ connector];
    mret service_name;
  after_yield := λ service_name, check_call (delete_command service_name)
|}.

(** [captured.strip().decode()]: the text is kept as its UTF-8 bytes,
    which is how it goes into a URL and a header. *)
Definition strip_decode (captured : option string) : M world string :=
  match captured with
  | None => raise AttributeError
  | Some bytes =>
      match decode (strip bytes) with
      | Some _ => mret (strip bytes)
      | None => raise UnicodeDecodeError
      end
  end.

Definition service_url_auth_token : fixture string (string * string) := {|
  before_yield := λ deployed_service,
    describe ← subprocess_run
                 (Argv ["gcloud"; "run"; "services"; "describe";
                        deployed_service; "--region=us-central1";
                        "--platform=managed"; "--format=value(status.url)";
                        "--project"; PROJECT E])
                 true false true;
    service_url ← strip_decode (stdout describe);
    token ← subprocess_run (Argv ["gcloud"; "auth"; "print-identity-token"])
              true false true;
    auth_token ← strip_decode (stdout token);
    mret (service_url, auth_token);
  after_yield := λ _, mret tt
|}.

(** [urllib.request.urlopen(req)]: the call is recorded, and it ends as
    the environment says. *)
Definition urlopen (req : Request) : M world (option Z * outcome string) :=
  λ w,
    let w' := {| processes := processes w;
                 requests := requests w ++ [req] |} in
    match serve E (length (requests w)) req with
    | Responded status read => (w', Returned (status, read))
    | Failed e => (w', Raised e)
    end.

(** [response.read()] *)
Definition read (response : option Z * outcome string) : M world string :=
  λ w, (w, response.2).

(** [assert b] *)
Definition assert (b : bool) : M world unit :=
  if b then mret tt else raise AssertionError.

(** The request object [Request(url, headers={'Authorization': ...})]
    when the URL is taken. *)
Definition bearer (url auth_token : string) : Request :=
  {| full_url := url;
     headers := [("Authorization", "Bearer " +:+ auth_token)];
     data := None |}.

(** [request.Request(url, headers={'Authorization': f'Bearer {auth_token}'})] *)
Definition authorized (url auth_token : string) : M world Request :=
  if takes_url E url then mret (bearer url auth_token)
  else raise ValueError.

(** The token the test looks for in the body:
    ['{dt:%a}-{dt:%b}-{dt:%d}-{dt:%H}'.format(dt=date)]. *)
Definition date_token (l : locale) (date : datetime) : str :=
  strftime l "%a" date ++ str_of "-" ++ strftime l "%b" date ++ str_of "-" ++
  strftime l "%d" date ++ str_of "-" ++ strftime l "%H" date.

Definition test_end_to_end (service_url_auth_token : string * string)
  : M world unit :=
  let '(service_url, auth_token) := service_url_auth_token in
  req ← authorized service_url auth_token;
  response ← urlopen req;
  _ ← assert (bool_decide (response.1 = Some 200%Z));
  let mnt_url := service_url +:+ "/mnt/nfs/filestore" in
  req ← authorized mnt_url auth_token;
  response ← urlopen req;
  _ ← assert (bool_decide (response.1 = Some 200%Z));
  let date := utcnow E in
  body ← read response;
  match decode body with
  | None => raise UnicodeDecodeError
  | Some text => assert (contains (date_token (LC_TIME E) date) text)
  end.

(** *** The pytest run of the one test *)

(** How a phase of the test item ended. *)
Inductive phase : Type :=
| Done
| Errored (e : exn)
| NotRun.

Record report : Type := {
  setup : phase;
  call : phase;
  teardown : phase
}.

Definition phase_of (o : outcome unit) : phase :=
  match o with Returned _ => Done | Raised e => Errored e end.

(** pytest sets up the fixtures in dependency order, calls the test
    when every setup returned, and then runs, last first, the code
    after the [yield] of every fixture whose setup returned; a fixture
    whose setup raised never reached its [yield] and has nothing to
    run. *)
Definition runtest : world → world * report :=
  λ w,
    match before_yield deployed_service tt w with
    | (w1, Raised e) =>
        (w1, {| setup := Errored e; call := NotRun; teardown := Done |})
    | (w1, Returned service_name) =>
        match before_yield service_url_auth_token service_name w1 with
        | (w2, Raised e) =>
            let '(w3, t) := after_yield deployed_service service_name w2 in
            (w3, {| setup := Errored e; call := NotRun;
                    teardown := phase_of t |})
        | (w2, Returned url_token) =>
            let '(w3, c) := test_end_to_end url_token w2 in
            let '(w4, t2) := after_yield service_url_auth_token url_token w3 in
            let '(w5, t1) := after_yield deployed_service service_name w4 in
            (w5, {| setup := Done; call := phase_of c;
                    teardown := match t2 with
                                | Raised e => Errored e
                                | Returned _ => phase_of t1
                                end |})
        end
    end.

End run.

Arguments before_yield {A B} _ _.
Arguments after_yield {A B} _ _.

(** Sample inputs. *)
Definition empty_world : world := {| processes := []; requests := [] |}.

Definition sample_date : datetime :=
  {| year := 2024; month := 2; day := 29;
     hour := 7; minute := 30; second := 0; microsecond := 0 |}.

(** A sample server as [urlopen] passes it on: a final status in 2xx
    is returned with the body, any other is raised as [HTTPError];
    [None] is a server that cannot be reached, where the connection
    fails and [urlopen] raises [URLError]. *)
Definition answered (response : option (Z * string)) : exchange :=
  match response with
  | None => Failed URLError
  | Some (code, body) =>
      if ((200 <=? code) && (code <? 300))%Z
      then Responded (Some code) (Returned body)
      else Failed (HTTPError code)
  end.

(** Every process succeeds and prints [out]; every URL with a scheme is
    taken and every exchange ends with [response]; the locale is the C
    locale. *)
Definition steady (out : string) (response : option (Z * string))
  : environment :=
  {| spawn := λ _ _, {| exit_status := 0; out := out; err := "" |};
     takes_url := has_scheme;
     takes_url_scheme := λ _ H, H;
     serve := λ _ _, answered response;
     utcnow := sample_date;
     LC_TIME := C_locale;
     environ := λ _, Some "10.0.0.2";
     SUFFIX := "5f0c7e2a";
     PROJECT := "sample-project" |}.

(** The CLI fails twice, then succeeds and prints an empty JSON list. *)
Definition flaky : environment :=
  {| spawn := λ i _,
       if bool_decide (i < 2)
       then {| exit_status := 1; out := ""; err := "ERROR: deadline exceeded" |}
       else {| exit_status := 0; out := "[]"; err := "" |};
     takes_url := has_scheme;
     takes_url_scheme := λ _ H, H;
     serve := λ _ _, Failed URLError;
     utcnow := sample_date;
     LC_TIME := C_locale;
     environ := λ _, None;
     SUFFIX := "5f0c7e2a";
     PROJECT := "sample-project" |}.

(** The same environment under another locale. *)
Definition in_locale (l : locale) (E : environment) : environment :=
  {| spawn := spawn E;
     takes_url := takes_url E;
     takes_url_scheme := takes_url_scheme E;
     serve := serve E;
     utcnow := utcnow E;
     LC_TIME := l;
     environ := environ E;
     SUFFIX := SUFFIX E;
     PROJECT := PROJECT E |}.

(** A locale with other day names. *)
Definition dutch : locale :=
  {| abday := str_of <$> ["ma"; "di"; "wo"; "do"; "vr"; "za"; "zo"];
     abmon := str_of <$> ["jan"; "feb"; "mrt"; "apr"; "mei"; "jun";
                          "jul"; "aug"; "sep"; "okt"; "nov"; "dec"] |}.

End Verifier.

(** ** The files of a tree, and the commands of the test run *)

Module Tree.
Import Fs.

(** The regular files under an entry, each with its path from the
    directory that holds the entry and its data. *)
Fixpoint files_under (n : node) : list (list string * string) :=
  match n with
  | File nm data => [([nm], data)]
  | Dir nm sub => (λ pd, (nm :: pd.1, pd.2)) <$> (sub ≫= files_under)
  end.

Definition files_of (d : list node) : list (list string * string) :=
  d ≫= files_under.

(** What [_create_dags_list] leaves in the staging directory. *)
Definition staged (dags_directory : list node) : list node :=
  copytree (ignore_patterns ["__init__.py"; "*_test.py"]) dags_directory.

(** A path none of whose components is excluded. *)
Definition kept (path : list string) : Prop :=
  Forall (λ nm, ¬ Publisher.excluded nm) path.

(** A source directory with nothing to publish. *)
Definition idle_dir : list node :=
  [File "__init__.py" ""; File "README.md" "notes";
   Dir "sql" [File "load.py" "x = 1"]].

End Tree.

Module Commands.
Import Rt Verifier.

(** The argument vectors of the three processes the fixtures start
    before the test. *)
Definition build_command (E : environment) (connector ip_address : string)
  : list string :=
  ["gcloud"; "builds"; "submit"; "--config"; "cloudbuild.yaml";
   "--project"; PROJECT E;
   "--substitutions=_SERVICE_NAME=" +:+ ("filesystem-" +:+ SUFFIX E)
   +:+ ",_FILESTORE_IP_ADDRESS=" +:+ ip_address
   +:+ ",_CONNECTOR=" +:+ connector].

Definition describe_command (E : environment) (service_name : string)
  : list string :=
  ["gcloud"; "run"; "services"; "describe"; service_name;
   "--region=us-central1"; "--platform=managed";
   "--format=value(status.url)"; "--project"; PROJECT E].

Definition token_command : list string :=
  ["gcloud"; "auth"; "print-identity-token"].

(** The first and the last character of a string. *)
Definition first_char (s : string) : option ascii :=
  match s with
  | EmptyString => None
  | String c _ => Some c
  end.

Fixpoint last_char (s : string) : option ascii :=
  match s with
  | EmptyString => None
  | String c s' =>
      match last_char s' with
      | None => Some c
      | Some d => Some d
      end
  end.

(** Sample environments: processes succeed up to the [n]-th started
    (counted from 0), which fails, as do all after it. *)
Definition failing_from (n : nat) (out : string)
    (response : option (Z * string)) : environment :=
  {| spawn := λ i _,
       if bool_decide (i < n)
       then {| exit_status := 0; out := out; err := "" |}
       else {| exit_status := 2; out := ""; err := "ERROR: not found" |};
     takes_url := has_scheme;
     takes_url_scheme := λ _ H, H;
     serve := λ _ _, answered response;
     utcnow := sample_date;
     LC_TIME := C_locale;
     environ := λ _, Some "10.0.0.2";
     SUFFIX := "5f0c7e2a";
     PROJECT := "sample-project" |}.

(** No variable is set in the process environment. *)
Definition bare : environment :=
  {| spawn := λ _ _, {| exit_status := 0; out := ""; err := "" |};
     takes_url := has_scheme;
     takes_url_scheme := λ _ H, H;
     serve := λ _ _, Failed URLError;
     utcnow := sample_date;
     LC_TIME := C_locale;
     environ := λ _, None;
     SUFFIX := "5f0c7e2a";
     PROJECT := "sample-project" |}.

End Commands.

(** * Properties *)

(** ** Facts about the string operations *)

Module PyFacts.
Import Py.

Lemma ascii_eqb_true (a b : ascii) : Ascii.eqb a b = true ↔ a = b.
Proof. apply Ascii.eqb_eq. Qed.

Lemma append_String (c : ascii) (a b : string) :
  String c a +:+ b = String c (a +:+ b).
Proof. reflexivity. Qed.

Lemma append_empty_l (a : string) : "" +:+ a = a.
Proof. reflexivity. Qed.

(** [String.append] does not unfold under [simpl]: push it inwards by
    rewriting. *)
Ltac unapp := rewrite ?append_String, ?append_empty_l.

Lemma append_empty_r (a : string) : a +:+ "" = a.
Proof. induction a as [|c a IH]; unapp; [done | by rewrite IH]. Qed.

Lemma append_assoc (a b c : string) : (a +:+ b) +:+ c = a +:+ (b +:+ c).
Proof. induction a as [|x a IH]; unapp; [done | by rewrite IH]. Qed.

Lemma length_append (a b : string) :
  String.length (a +:+ b) = String.length a + String.length b.
Proof. induction a as [|x a IH]; unapp; simpl; [done | by rewrite IH]. Qed.

Lemma append_inv_head (a b c : string) : a +:+ b = a +:+ c → b = c.
Proof. induction a as [|x a IH]; unapp; [done | intros [=]; auto]. Qed.

Lemma has_char_app (c : ascii) (a b : string) :
  has_char c (a +:+ b) = has_char c a || has_char c b.
Proof.
  induction a as [|x a IH]; unapp; simpl; [done |].
  rewrite IH. by rewrite orb_assoc.
Qed.

Lemma startswith_app (p s : string) : startswith p (p +:+ s) = true.
Proof.
  induction p as [|x p IH]; unapp; simpl; [done |].
  rewrite IH. by rewrite Ascii.eqb_refl.
Qed.

Lemma startswith_inv (p s : string) :
  startswith p s = true → ∃ r, s = p +:+ r.
Proof.
  revert s. induction p as [|x p IH]; intros s Hs.
  - by exists s.
  - destruct s as [|y s]; simpl in Hs; [done |].
    apply andb_true_iff in Hs as [Hxy Hp].
    apply ascii_eqb_true in Hxy as ->.
    destruct (IH _ Hp) as [r ->]. by exists r.
Qed.

(** An occurrence of [old] brings every character of [old] with it. *)
Lemma startswith_has_char (c : ascii) (old s : string) :
  startswith old s = true → has_char c old = true → has_char c s = true.
Proof.
  intros Hs Hc. destruct (startswith_inv _ _ Hs) as [r ->].
  rewrite has_char_app, Hc. done.
Qed.

Lemma replace_from_skip (old new a b : string) :
  replace_from old new (String.length a) (a +:+ b) = replace_from old new 0 b.
Proof. induction a as [|x a IH]; unapp; simpl; [by destruct b | done]. Qed.

(** No occurrence, no change. *)
Lemma replace_from_absent (c : ascii) (old new s : string) :
  has_char c old = true → has_char c s = false →
  replace_from old new 0 s = s.
Proof.
  intros Hold. induction s as [|x s IH]; intros Hs; [done |].
  cbn [replace_from].
  destruct (startswith old (String x s)) eqn:Hpre.
  - apply (startswith_has_char c) in Hpre; [congruence | done].
  - simpl in Hs. apply orb_false_iff in Hs as [_ Hs].
    by rewrite IH.
Qed.

(** Removing [old] from [old + s] leaves [s] when [s] lacks a character
    of [old]: the occurrence at the front is the only one. *)
Lemma replace_prefix (c : ascii) (old s : string) :
  has_char c old = true → has_char c s = false →
  replace old "" (old +:+ s) = s.
Proof.
  intros Hold Hs. destruct old as [|o old']; [done |].
  unfold replace. rewrite append_String. cbn [replace_from].
  rewrite <- append_String, startswith_app.
  replace (String.length (String o old') - 1) with (String.length old')
    by (simpl; lia).
  rewrite append_empty_l, replace_from_skip.
  by apply (replace_from_absent c).
Qed.

(** [fnmatch] on a pattern that starts with a star. *)
Lemma fnmatch_star (pat name : string) :
  fnmatch (String "*" pat) name = true ↔
  ∃ a b, name = a +:+ b ∧ fnmatch pat b = true.
Proof.
  unfold fnmatch. cbn [items_from].
  replace (Ascii.eqb "*" "*") with true by reflexivity. cbn [matches].
  induction name as [|x name IH].
  - rewrite orb_false_r. split.
    + intros Hm. by exists "", "".
    + intros (a & b & Hab & Hm). destruct a; [| done].
      rewrite append_empty_l in Hab. by subst b.
  - rewrite orb_true_iff, IH. split.
    + intros [Hm | (a & b & -> & Hm)].
      * by exists "", (String x name).
      * by exists (String x a), b.
    + intros (a & b & Hab & Hm). destruct a as [|y a].
      * left. rewrite append_empty_l in Hab. by subst b.
      * right. rewrite append_String in Hab. injection Hab as -> ->.
        by exists a, b.
Qed.

Lemma fnmatch_literal (pat name : string) :
  literal pat = true → (fnmatch pat name = true ↔ name = pat).
Proof.
  unfold fnmatch.
  revert name. induction pat as [|p pat IH]; intros name Hlit.
  - destruct name; simpl; split; done.
  - simpl in Hlit. apply andb_true_iff in Hlit as [Hp Hlit].
    apply andb_true_iff in Hp as [Hp Hbr].
    apply andb_true_iff in Hp as [Hstar Hqm].
    apply negb_true_iff in Hstar, Hqm, Hbr.
    cbn [items_from]. rewrite Hstar, Hqm, Hbr. cbn [matches accepts].
    destruct name as [|c name]; [split; done |].
    rewrite andb_true_iff, (IH _ Hlit). rewrite ascii_eqb_true.
    split; [intros [-> ->]; done | intros [= -> ->]; done].
Qed.

(** The three patterns of the program. *)
Lemma fnmatch_suffix (suffix name : string) :
  literal suffix = true →
  (fnmatch (String "*" suffix) name = true ↔ endswith suffix name).
Proof.
  intros Hlit. rewrite fnmatch_star. unfold endswith. split.
  - intros (a & b & -> & Hm). apply (fnmatch_literal _ _ Hlit) in Hm as ->.
    by exists a.
  - intros [a ->]. exists a, suffix. split; [done |].
    by apply fnmatch_literal.
Qed.

End PyFacts.

(** ** Facts about the staging step *)

Module FsFacts.
Import Py Fs PyFacts.

Lemma filter_ext_elem {A} (P Q : A → Prop)
    `{!∀ x, Decision (P x), !∀ x, Decision (Q x)} (l : list A) :
  (∀ x, x ∈ l → (P x ↔ Q x)) → filter P l = filter Q l.
Proof.
  induction l as [|x l IH]; intros HPQ; [done |].
  rewrite !filter_cons.
  rewrite IH by (intros y Hy; apply HPQ; by right).
  apply decide_ext, HPQ. by left.
Qed.

Lemma filter_fmap {A B} (f : A → B) (P : B → Prop)
    `{!∀ x, Decision (P x)} (l : list A) :
  filter P (f <$> l) = f <$> filter (λ x, P (f x)) l.
Proof.
  induction l as [|x l IH]; [done |].
  rewrite fmap_cons, !filter_cons, IH.
  by destruct (decide (P (f x))).
Qed.

(** Splitting a selection by a second predicate. *)
Lemma length_filter_split {A} (P Q : A → Prop)
    `{!∀ x, Decision (P x), !∀ x, Decision (Q x)} (l : list A) :
  length (filter (λ x, P x ∧ ¬ Q x) l) =
  length (filter P l) - length (filter (λ x, P x ∧ Q x) l).
Proof.
  assert (Hle : ∀ k : list A,
             length (filter (λ x, P x ∧ Q x) k) ≤ length (filter P k)).
  { induction k as [|y k IHk]; [done |].
    rewrite !filter_cons.
    destruct (decide (P y ∧ Q y)) as [[HP _]|Hn].
    - rewrite decide_True by done. simpl. lia.
    - destruct (decide (P y)); simpl; lia. }
  induction l as [|x l IH]; [done |].
  rewrite !filter_cons. specialize (Hle l).
  destruct (decide (P x)) as [HP|HP].
  - destruct (decide (Q x)) as [HQ|HQ].
    + rewrite decide_False by tauto. rewrite decide_True by done.
      simpl. lia.
    + rewrite decide_True by done. rewrite decide_False by tauto.
      simpl. lia.
  - rewrite !decide_False by tauto. done.
Qed.

Lemma node_name_copy_entry ignore (e : node) :
  node_name (copy_entry ignore e) = node_name e.
Proof. by destruct e. Qed.

(** The names staged are the names that [ignore] did not return, in the
    order of the source. *)
Lemma names_copytree ignore (d : list node) :
  names (copytree ignore d) =
  filter (λ nm, nm ∉ ignore (names d)) (names d).
Proof.
  unfold copytree, names. generalize (ignore (node_name <$> d)) as ign.
  intros ign. induction d as [|e d IH]; [done |].
  rewrite fmap_cons, filter_cons. cbn [omap list_omap].
  unfold copy_unless at 1.
  destruct (decide (node_name e ∉ ign)) as [Hout|Hin].
  - rewrite bool_decide_eq_false_2 by done.
    rewrite fmap_cons, node_name_copy_entry. f_equal. apply IH.
  - rewrite bool_decide_eq_true_2 by (by apply dec_stable). apply IH.
Qed.

Lemma elem_of_ignore_patterns (patterns nms : list string) (nm : string) :
  nm ∈ ignore_patterns patterns nms ↔
  nm ∈ nms ∧ ∃ pat, pat ∈ patterns ∧ fnmatch pat nm = true.
Proof.
  unfold ignore_patterns. rewrite list_elem_of_bind. split.
  - intros (pat & Hnm & Hpat). unfold fnmatch_filter in Hnm.
    apply list_elem_of_filter in Hnm as [Hm Hnm].
    split; [done |]. exists pat. split; [done |]. by apply Is_true_true.
  - intros (Hnm & pat & Hpat & Hm). exists pat. split; [| done].
    apply list_elem_of_filter. split; [by apply Is_true_true | done].
Qed.

Lemma has_magic_append (a b : string) :
  has_magic (a +:+ b) = has_magic a || has_magic b.
Proof.
  unfold has_magic. rewrite !has_char_app.
  destruct (has_char "*" a), (has_char "?" a), (has_char "[" a),
    (has_char "*" b), (has_char "?" b); reflexivity.
Qed.

Lemma components_plain (component path : string) :
  has_magic component = false → has_magic path = false →
  Forall (λ c, has_magic c = false) (components_from component path).
Proof.
  revert component. induction path as [|x path IH]; intros component Hc Hp.
  - by constructor.
  - assert (Hx : has_magic (String x "") = false ∧ has_magic path = false).
    { change (String x path) with (String x "" +:+ path) in Hp.
      rewrite has_magic_append in Hp. by apply orb_false_iff in Hp. }
    destruct Hx as [Hx Hpath]. cbn [components_from].
    destruct (Ascii.eqb x "/").
    + constructor; [done |]. by apply IH.
    + apply IH; [| done]. rewrite has_magic_append, Hc, Hx. done.
Qed.

(** A path without [*], [?] and [[] is found as it is. *)
Lemma glob_finds_plain (dirname : string) :
  has_magic dirname = false → glob_finds dirname = true.
Proof.
  intros Hplain. unfold glob_finds, components.
  apply forallb_forall. intros c Hc.
  pose proof (components_plain "" dirname eq_refl Hplain) as Hall.
  rewrite Forall_forall in Hall.
  rewrite (Hall c) by by apply list_elem_of_In. done.
Qed.

End FsFacts.

(** ** The DAG publisher *)

Module PublisherFacts.
Import Py Fs Rt Publisher PyFacts FsFacts.

Lemma matches_exclusion_spec (nm : string) :
  matches_exclusion nm = true ↔ excluded nm.
Proof.
  unfold matches_exclusion, excluded, package_marker, test_suffixed.
  rewrite orb_true_iff.
  rewrite (fnmatch_literal "__init__.py") by reflexivity.
  rewrite (fnmatch_suffix "_test.py") by reflexivity. done.
Qed.

Lemma matches_listing_spec (nm : string) :
  matches_listing nm = true ↔ ishidden nm = false ∧ endswith ".py" nm.
Proof.
  unfold matches_listing.
  rewrite andb_true_iff, negb_true_iff.
  rewrite (fnmatch_suffix ".py") by reflexivity. done.
Qed.

Lemma ignored_iff (nms : list string) (nm : string) :
  nm ∈ nms →
  (nm ∈ ignore_patterns ["__init__.py"; "*_test.py"] nms ↔
   matches_exclusion nm).
Proof.
  intros Hnm. rewrite elem_of_ignore_patterns, Is_true_true.
  unfold matches_exclusion. rewrite orb_true_iff. split.
  - intros (_ & pat & Hpat & Hm).
    apply elem_of_cons in Hpat as [-> | Hpat]; [by left |].
    apply elem_of_cons in Hpat as [-> | Hpat]; [by right |].
    by apply elem_of_nil in Hpat.
  - intros [Hm | Hm]; (split; [done |]).
    + exists "__init__.py". split; [by left | done].
    + exists "*_test.py". split; [right; by left | done].
Qed.

Lemma has_slash_staging_prefix (temp_dir : string) :
  has_char "/" (temp_dir +:+ "/") = true.
Proof. rewrite has_char_app. simpl. by rewrite orb_true_r. Qed.

(** Stripping the staging prefix from a staged path gives back the name. *)
Lemma key_of_staged (temp_dir nm : string) :
  has_char "/" nm = false →
  key_of temp_dir (temp_dir +:+ "/" +:+ nm) = nm.
Proof.
  intros Hnm. unfold key_of. rewrite <- append_assoc.
  apply (replace_prefix "/"); [apply has_slash_staging_prefix | done].
Qed.

Section listing.
Context `{ScanOrder}.

(** The staged list, up to the order of the listing: the names of the
    source directory that the listing pattern selects and no exclusion
    pattern matches, each under the staging path. *)
Lemma dags_perm (temp_dir : string) (d : list node) :
  (_create_dags_list temp_dir d).2 ≡ₚ
  if glob_finds temp_dir
  then (λ nm, temp_dir +:+ "/" +:+ nm) <$>
         filter (λ nm, matches_listing nm ∧ ¬ matches_exclusion nm) (names d)
  else [].
Proof.
  unfold _create_dags_list, glob, glob1, fnmatch_filter. cbn [snd ishidden].
  replace (Ascii.eqb "*" ".") with false by reflexivity. cbv iota.
  destruct (glob_finds temp_dir); [| done].
  apply fmap_Permutation.
  rewrite list_filter_filter.
  unfold names at 1. rewrite (scandir_perm _). fold (names (copytree
    (ignore_patterns ["__init__.py"; "*_test.py"]) d)).
  rewrite names_copytree, list_filter_filter.
  erewrite filter_ext_elem; [reflexivity |].
  intros nm Hnm. rewrite (ignored_iff _ _ Hnm).
  unfold matches_listing. rewrite andb_True. tauto.
Qed.

Lemma elem_of_dags (temp_dir : string) (d : list node) (dag : string) :
  dag ∈ (_create_dags_list temp_dir d).2 ↔
  glob_finds temp_dir = true ∧
  ∃ nm, dag = temp_dir +:+ "/" +:+ nm ∧ nm ∈ names d ∧
        matches_listing nm = true ∧ matches_exclusion nm = false.
Proof.
  rewrite dags_perm. destruct (glob_finds temp_dir).
  2:{ rewrite elem_of_nil. by split; [| intros [? _]]. }
  rewrite list_elem_of_fmap.
  split; [intros (nm & -> & Hnm); split; [done |]
         | intros (_ & nm & -> & Hnm)]; exists nm; (split; [done |]).
  - apply list_elem_of_filter in Hnm as [[Hl Hx] Hnm].
    split; [done |]. split; [by apply Is_true_true |].
    destruct (matches_exclusion nm); [by destruct Hx | done].
  - destruct Hnm as (Hnm & Hl & Hx). apply list_elem_of_filter.
    split; [| done]. split; [by apply Is_true_true |].
    rewrite Hx. tauto.
Qed.

Lemma NoDup_dags (temp_dir : string) (d : list node) :
  NoDup (names d) → NoDup (_create_dags_list temp_dir d).2.
Proof.
  intros Hd. rewrite dags_perm.
  destruct (glob_finds temp_dir); [| constructor].
  apply NoDup_fmap_2_strong; [| by apply NoDup_filter].
  intros a b _ _ Hab.
  apply append_inv_head in Hab. by apply append_inv_head in Hab.
Qed.

End listing.

(** *** The upload loop *)

Section uploads.
Variable network : nat → bool.
Variable bucket_name : string.

Lemma for_each_upload_dag (temp_dir : string) (dags : list string) w :
  for_each dags (upload_dag network temp_dir bucket_name) w =
  upload_keys network bucket_name (key_of temp_dir <$> dags) w.
Proof.
  revert w. induction dags as [|dag dags IH]; intros w; [done |].
  rewrite fmap_cons. unfold upload_keys. cbn [for_each]. unfold bind.
  unfold upload_dag at 1. fold (key_of temp_dir dag).
  destruct (upload_from_string _ _ _ _ w) as [w1 [[]|e]]; [| done].
  apply IH.
Qed.

Lemma upload_keys_cons (key : string) (keys : list string) w :
  upload_keys network bucket_name (key :: keys) w =
  if network (requests w) then
    upload_keys network bucket_name keys
      {| objects := <[(bucket_name, key) := key]> (objects w);
         writes := writes w ++ [write_of bucket_name key];
         requests := S (requests w) |}
  else
    ({| objects := objects w; writes := writes w;
        requests := S (requests w) |}, Raised GoogleCloudError).
Proof.
  unfold upload_keys. cbn [for_each]. unfold bind, upload_from_string at 1.
  by destruct (network (requests w)).
Qed.



(** Whatever the network does, the writes of a run are those of a
    prefix of the keys, and the run returns exactly when the prefix is
    the whole list. *)
Lemma upload_keys_any (keys : list string) w :
  ∃ k, k ≤ length keys ∧
    writes (upload_keys network bucket_name keys w).1 =
      writes w ++ (write_of bucket_name <$> take k keys) ∧
    (is_returned (upload_keys network bucket_name keys w).2 = true → k = length keys).
Proof.
  revert w. induction keys as [|key keys IH]; intros w.
  - exists 0. cbn. by rewrite app_nil_r.
  - rewrite upload_keys_cons. destruct (network (requests w)).
    + match goal with |- context [upload_keys network bucket_name keys ?w1] =>
        destruct (IH w1) as (k & Hk & Hw & Hr) end.
      exists (S k). split; [simpl; lia |]. split.
      * rewrite Hw. cbn [writes take]. rewrite fmap_cons.
        by rewrite <- (assoc_L (++)).
      * intros Hret. simpl. f_equal. auto.
    + exists 0. cbn. split; [lia |]. by rewrite app_nil_r.
Qed.

Lemma lookup_store_all (keys : list string) m (key : string) :
  key ∈ keys →
  store_all bucket_name keys m !! (bucket_name, key) = Some key.
Proof.
  revert m. induction keys as [|k keys IH] using rev_ind; intros m Hkey.
  - by apply elem_of_nil in Hkey.
  - unfold store_all. rewrite foldl_app. cbn [foldl].
    destruct (decide (key = k)) as [-> | Hne].
    + by rewrite lookup_insert_eq.
    + rewrite lookup_insert_ne by congruence.
      apply IH. apply elem_of_app in Hkey as [Hkey | Hkey]; [done |].
      apply elem_of_cons in Hkey as [-> | Hkey]; [done |].
      by apply elem_of_nil in Hkey.
Qed.

End uploads.

(** *** The claims about the publisher *)

Section claims.
Context `{ScanOrder}.
Variable network : nat → bool.

Lemma run_as_upload_keys (temp_dir : string) (d : list node)
    (bucket_name : string) w :
  upload_dags_to_composer network temp_dir d bucket_name w =
  upload_keys network bucket_name
    (key_of temp_dir <$> (_create_dags_list temp_dir d).2) w.
Proof. unfold upload_dags_to_composer. apply for_each_upload_dag. Qed.

(** Every staged path comes from one entry of the source directory:
    the entry's name under the staging path, and its key is that name. *)
Lemma staged_entry (temp_dir : string) (d : list node) (dag : string) :
  valid_dir d →
  dag ∈ (_create_dags_list temp_dir d).2 →
  ∃ e, e ∈ d ∧ dag = temp_dir +:+ "/" +:+ node_name e ∧
       key_of temp_dir dag = node_name e ∧
       matches_listing (node_name e) = true ∧ ¬ excluded (node_name e).
Proof.
  intros [Hvalid _] Hdag.
  apply elem_of_dags in Hdag as (_ & nm & -> & Hnm & Hl & Hx).
  pose proof Hnm as Hin.
  apply list_elem_of_fmap in Hin as (e & -> & He).
  exists e. split; [done |]. split; [done |].
  rewrite Forall_forall in Hvalid. destruct (Hvalid _ Hnm) as [_ Hslash].
  split; [by apply key_of_staged |]. split; [done |].
  rewrite <- matches_exclusion_spec. congruence.
Qed.

Lemma NoDup_keys (temp_dir : string) (d : list node) :
  valid_dir d → NoDup (key_of temp_dir <$> (_create_dags_list temp_dir d).2).
Proof.
  intros Hd. apply NoDup_fmap_2_strong; [| apply NoDup_dags, Hd].
  intros dag1 dag2 H1 H2 Hkey.
  destruct (staged_entry _ _ _ Hd H1) as (e1 & _ & -> & Hk1 & _).
  destruct (staged_entry _ _ _ Hd H2) as (e2 & _ & -> & Hk2 & _).
  congruence.
Qed.

Lemma entries_of_names (P : node → Prop) (nms : list string) :
  Forall (λ nm, ∃ e, node_name e = nm ∧ P e) nms →
  ∃ es, names es = nms ∧ Forall P es.
Proof.
  induction 1 as [|nm nms (e & <- & He) _ (es & <- & Hes)].
  - by exists [].
  - exists (e :: es). split; [done | by constructor].
Qed.

End claims.


(** C2.  In a directory with valid, distinct names: every staged path is
    the staging path of an entry of the source directory whose name is
    neither the package marker nor test-suffixed, no path of an excluded
    name is staged, and whatever the network does the objects written
    are, one for one and in order, distinct entries of the source
    directory that the exclusion filter kept, each under its own name. *)
Theorem staged_and_uploaded_survive_exclusion `{ScanOrder}
    (network : nat → bool) (temp_dir : string) (d : list node)
    (bucket_name : string) (w : cloud) :
  valid_dir d →
  (∀ dag, dag ∈ (_create_dags_list temp_dir d).2 →
     ∃ e, e ∈ d ∧ dag = temp_dir +:+ "/" +:+ node_name e ∧
          ¬ excluded (node_name e)) ∧
  (∀ nm, excluded nm →
     temp_dir +:+ "/" +:+ nm ∉ (_create_dags_list temp_dir d).2) ∧
  ∃ uploaded : list node,
    writes (upload_dags_to_composer network temp_dir d bucket_name w).1 =
      writes w ++ (write_of bucket_name <$> names uploaded) ∧
    NoDup (names uploaded) ∧
    Forall (λ e, e ∈ d ∧ ¬ excluded (node_name e)) uploaded.
Proof.
  intros Hd. split; [| split].
  - intros dag Hdag.
    destruct (staged_entry _ _ _ Hd Hdag) as (e & He & Hdag' & _ & _ & Hx).
    by exists e.
  - intros nm Hx Hdag.
    destruct (staged_entry _ _ _ Hd Hdag) as (e & _ & Heq & _ & _ & Hne).
    apply append_inv_head in Heq. apply append_inv_head in Heq.
    by subst nm.
  - rewrite run_as_upload_keys.
    destruct (upload_keys_any network bucket_name
                (key_of temp_dir <$> (_create_dags_list temp_dir d).2) w)
      as (k & _ & Hw & _).
    destruct (entries_of_names (λ e, e ∈ d ∧ ¬ excluded (node_name e))
                (take k (key_of temp_dir <$> (_create_dags_list temp_dir d).2)))
      as (es & Hes & HP).
    { apply Forall_take, Forall_forall. intros key Hkey.
      apply list_elem_of_fmap in Hkey as (dag & -> & Hdag).
      destruct (staged_entry _ _ _ Hd Hdag) as (e & He & _ & Hk & _ & Hx).
      by exists e. }
    exists es. rewrite Hes. split; [done |]. split; [| done].
    eapply sublist_NoDup; [by apply NoDup_keys | apply sublist_take].
Qed.

Lemma sample_dir_valid : valid_dir sample_dir.
Proof.
  split.
  - repeat constructor; done.
  - apply (bool_decide_unpack _). by vm_compute.
Qed.


Lemma staged_and_uploaded_survive_exclusion_witness :
  valid_dir sample_dir ∧
  ∀ nm, excluded nm →
    sample_temp_dir +:+ "/" +:+ nm ∉
      (_create_dags_list sample_temp_dir sample_dir).2.
Proof.
  split; [exact sample_dir_valid |].
  exact (proj1 (proj2 (staged_and_uploaded_survive_exclusion (λ _, true)
           sample_temp_dir sample_dir "dag-bucket" empty_cloud
           sample_dir_valid))).
Defined.

(** C4, as stated, fails: a file that is not a Python file is counted
    among the N files and matches no exclusion pattern, yet is not
    listed. *)
Lemma staged_count_not_files_minus_excluded :
  length (_create_dags_list sample_temp_dir
            [File "etl.py" "from airflow import DAG";
             File "README.md" "DAGs of the data team"]).2
  ≠ file_count [File "etl.py" "from airflow import DAG";
                File "README.md" "DAGs of the data team"]
    - excluded_file_count [File "etl.py" "from airflow import DAG";
                           File "README.md" "DAGs of the data team"].
Proof. vm_compute. lia. Qed.

(** C4, amended.  For a staging path without [*], [?] and [[]: of the
    entries directly in the source directory, let N be the number the
    listing pattern selects (name ending in [.py], not starting with a
    dot) and M the number of those that match an exclusion pattern; the
    staged list has exactly N - M paths. *)
Theorem staged_count `{ScanOrder} (temp_dir : string) (d : list node) :
  has_magic temp_dir = false →
  length (_create_dags_list temp_dir d).2 =
  listed_count d - excluded_listed_count d.
Proof.
  intros Hplain. rewrite dags_perm, (glob_finds_plain _ Hplain), length_fmap.
  unfold names. rewrite filter_fmap, length_fmap.
  rewrite (length_filter_split (λ e, matches_listing (node_name e))
             (λ e, matches_exclusion (node_name e))).
  unfold listed_count, excluded_listed_count. do 2 f_equal.
  apply list_filter_iff. intros e. by rewrite andb_True.
Qed.

Lemma staged_count_witness :
  length (_create_dags_list sample_temp_dir sample_dir).2 =
  listed_count sample_dir - excluded_listed_count sample_dir.
Proof. exact (staged_count sample_temp_dir sample_dir eq_refl). Defined.

Lemma staged_entries (P : node → Prop) (f : node → string)
    (l : list string) :
  Forall (λ x, ∃ e, P e ∧ x = f e) l →
  ∃ es, l = f <$> es ∧ Forall P es.
Proof.
  induction 1 as [|x l (e & He & ->) _ (es & -> & Hes)].
  - by exists [].
  - exists (e :: es). split; [done | by constructor].
Qed.

(** C5.  In a directory with valid names the staged list is the list of
    the staging paths of some entries of the source directory; for each
    of them the loop body uploads under the entry's name, which is the
    entry's path relative to the source directory and holds no slash,
    and whatever the network does the writes of the publish step are, in
    order, under the names of these entries: nothing of the staging path
    is left in a key. *)
Theorem object_key_is_relative_path `{ScanOrder} (network : nat → bool)
    (temp_dir : string) (d : list node) (bucket_name : string) (w : cloud) :
  valid_dir d →
  ∃ es : list node,
    Forall (λ e, e ∈ d ∧ has_char "/" (node_name e) = false) es ∧
    (_create_dags_list temp_dir d).2
      = (λ e, temp_dir +:+ "/" +:+ node_name e) <$> es ∧
    (∀ e w', e ∈ es →
       key_of temp_dir (temp_dir +:+ "/" +:+ node_name e) = node_name e ∧
       upload_dag network temp_dir bucket_name
         (temp_dir +:+ "/" +:+ node_name e) w'
       = upload_from_string network bucket_name (node_name e) (node_name e) w') ∧
    ∃ j, j ≤ length es ∧
      writes (upload_dags_to_composer network temp_dir d bucket_name w).1
        = writes w ++ (write_of bucket_name <$> take j (names es)) ∧
      (is_returned (upload_dags_to_composer network temp_dir d bucket_name w).2
         = true → j = length es).
Proof.
  intros Hd.
  destruct (staged_entries
              (λ e, e ∈ d ∧ has_char "/" (node_name e) = false)
              (λ e, temp_dir +:+ "/" +:+ node_name e)
              (_create_dags_list temp_dir d).2) as (es & Hdags & Hes).
  { apply Forall_forall. intros dag Hdag.
    destruct (staged_entry _ _ _ Hd Hdag) as (e & He & -> & _).
    exists e. split; [| done]. split; [done |].
    destruct Hd as [Hvalid _]. rewrite Forall_forall in Hvalid.
    by apply (Hvalid (node_name e)), list_elem_of_fmap_2. }
  exists es. split; [done |]. split; [done |].
  assert (Hkey : ∀ e, e ∈ es →
            key_of temp_dir (temp_dir +:+ "/" +:+ node_name e) = node_name e).
  { intros e He. rewrite Forall_forall in Hes.
    apply key_of_staged. by apply (Hes e He). }
  split.
  - intros e w' He. split; [by apply Hkey |].
    unfold upload_dag. fold (key_of temp_dir (temp_dir +:+ "/" +:+ node_name e)).
    by rewrite (Hkey e He).
  - rewrite run_as_upload_keys, Hdags.
    assert (Hkeys : key_of temp_dir
                      <$> ((λ e, temp_dir +:+ "/" +:+ node_name e) <$> es)
                    = names es).
    { rewrite <- list_fmap_compose. unfold names.
      apply list_fmap_ext. intros i e Hi. apply Hkey.
      by apply list_elem_of_lookup_2 in Hi. }
    rewrite Hkeys.
    destruct (upload_keys_any network bucket_name (names es) w)
      as (j & Hj & Hw & Hr).
    exists j. assert (Hlen : length (names es) = length es)
      by apply length_fmap.
    rewrite Hlen in Hj, Hr. done.
Qed.

Lemma object_key_is_relative_path_witness :
  ∃ es : list node,
    Forall (λ e, e ∈ sample_dir ∧ has_char "/" (node_name e) = false) es ∧
    (_create_dags_list sample_temp_dir sample_dir).2
      = (λ e, sample_temp_dir +:+ "/" +:+ node_name e) <$> es ∧
    (∀ e w', e ∈ es →
       key_of sample_temp_dir (sample_temp_dir +:+ "/" +:+ node_name e)
       = node_name e ∧
       upload_dag (λ _, true) sample_temp_dir "dag-bucket"
         (sample_temp_dir +:+ "/" +:+ node_name e) w'
       = upload_from_string (λ _, true) "dag-bucket" (node_name e)
           (node_name e) w') ∧
    ∃ j, j ≤ length es ∧
      writes (upload_dags_to_composer (λ _, true) sample_temp_dir sample_dir
                "dag-bucket" empty_cloud).1
        = writes empty_cloud ++ (write_of "dag-bucket" <$> take j (names es)) ∧
      (is_returned (upload_dags_to_composer (λ _, true) sample_temp_dir
                      sample_dir "dag-bucket" empty_cloud).2
         = true → j = length es).
Proof.
  exact (object_key_is_relative_path (λ _, true) sample_temp_dir sample_dir
           "dag-bucket" empty_cloud sample_dir_valid).
Defined.

(** The scenario of C6 on a staging path without [*], [?] and [[]: for
    the files [a.py], [__init__.py] and [b_test.py] in any order the
    staged list is the one path of [a.py] and the publish step issues
    exactly one upload, of key [a.py]. *)
Lemma scenario_on_plain_staging_path `{ScanOrder} (network : nat → bool)
    (temp_dir : string) (d : list node) (da di db : string)
    (bucket_name : string) (w : cloud) :
  has_magic temp_dir = false →
  d ≡ₚ [File "a.py" da; File "__init__.py" di; File "b_test.py" db] →
  (_create_dags_list temp_dir d).2 = [temp_dir +:+ "/a.py"] ∧
  upload_dags_to_composer network temp_dir d bucket_name w =
    if network (requests w) then
      ({| objects := <[(bucket_name, "a.py") := "a.py"]> (objects w);
          writes := writes w ++ [(bucket_name, "a.py", "a.py")];
          requests := S (requests w) |}, Returned tt)
    else
      ({| objects := objects w; writes := writes w;
          requests := S (requests w) |}, Raised GoogleCloudError).
Proof.
  intros Hplain Hperm.
  assert (Hdags : (_create_dags_list temp_dir d).2 = [temp_dir +:+ "/a.py"]).
  { apply Permutation_singleton_r.
    rewrite dags_perm, (glob_finds_plain _ Hplain). unfold names.
    rewrite Hperm. reflexivity. }
  split; [done |].
  rewrite run_as_upload_keys, Hdags. cbn [fmap list_fmap].
  change (temp_dir +:+ "/a.py") with (temp_dir +:+ "/" +:+ "a.py").
  rewrite key_of_staged by reflexivity.
  by rewrite upload_keys_cons.
Qed.

(** C6.  With the temporary directory under [/tmp/val[x]], the staging
    path read as a pattern does not match the staging directory: for the
    source directory with [a.py], [__init__.py] and [b_test.py], in any
    listing order and whatever the network does, the staged list is
    empty and the publish step returns without a single upload, although
    [a.py], and only [a.py], was copied to the staging directory. *)
Theorem scenario_stages_nothing_under_bracket_path `{ScanOrder}
    (network : nat → bool) (bucket_name : string) (w : cloud) :
  (_create_dags_list "/tmp/val[x]/tmpk3v9x0qz"
     [File "a.py" "dag = 1"; File "__init__.py" ""; File "b_test.py" "import a"]).2
  = [] ∧
  names (Tree.staged [File "a.py" "dag = 1"; File "__init__.py" "";
                      File "b_test.py" "import a"]) = ["a.py"] ∧
  upload_dags_to_composer network "/tmp/val[x]/tmpk3v9x0qz"
    [File "a.py" "dag = 1"; File "__init__.py" ""; File "b_test.py" "import a"]
    bucket_name w
  = (w, Returned tt).
Proof.
  assert (Hdags : (_create_dags_list "/tmp/val[x]/tmpk3v9x0qz"
                     [File "a.py" "dag = 1"; File "__init__.py" "";
                      File "b_test.py" "import a"]).2 = []).
  { apply Permutation_nil_r. rewrite dags_perm.
    by replace (glob_finds "/tmp/val[x]/tmpk3v9x0qz") with false
      by (by vm_compute). }
  split; [done |]. split; [reflexivity |].
  rewrite run_as_upload_keys, Hdags. reflexivity.
Qed.



End PublisherFacts.

(** ** The deployment verifier *)

Module VerifierFacts.
Import Rt Verifier.

(** Unfolding the monad of a run. *)
Ltac run_step :=
  unfold mbind, M_bind, bind, mret, M_ret, ret, raise, try_except.

(** *** The retry-wrapped CLI helper *)

Section cli.
Variable E : environment.
Variable value : Type.
Variable json_loads : string → option value.

Lemma json_unresolved w :
  load_global "json" w = (w, Raised (NameError "json")).
Proof. reflexivity. Qed.

(** One call of the body starts one process and raises: the error of
    the process when it failed, and otherwise, the name [json] being
    unbound, an [Exception] that carries the standard error. *)
Lemma gcloud_cli_body_raises (command : string) w :
  gcloud_cli_body E value json_loads command w =
  ({| processes := processes w ++ [cli_line command];
      requests := requests w |},
   Raised
     (let p := spawn E (length (processes w)) (cli_line command) in
      if (exit_status p =? 0)%Z then Exception (Some (err p))
      else CalledProcessError (exit_status p) (Some (out p)) (Some (err p)))).
Proof.
  unfold gcloud_cli_body. run_step. unfold subprocess_run.
  cbn [captured andb].
  by destruct (exit_status _ =? 0)%Z.
Qed.

Lemma retry_of_raising {A} (target : M world A) (n : nat) w w' e :
  target w = (w', Raised e) →
  retry target n w =
  match n with O => (w', Raised e) | S m => retry target m w' end.
Proof. intros Ht. destruct n; simpl; by rewrite Ht. Qed.

(** The three tries of a wrapped call: three processes, and the
    exception of the third. *)
Lemma gcloud_cli_three_tries (command : string) w :
  gcloud_cli E value json_loads command w =
  ({| processes := processes w ++ [cli_line command; cli_line command;
                                   cli_line command];
      requests := requests w |},
   Raised
     (let p := spawn E (length (processes w) + 2) (cli_line command) in
      if (exit_status p =? 0)%Z then Exception (Some (err p))
      else CalledProcessError (exit_status p) (Some (out p)) (Some (err p)))).
Proof.
  unfold gcloud_cli, on_exception. cbn [Nat.sub].
  erewrite retry_of_raising by apply gcloud_cli_body_raises.
  erewrite retry_of_raising by apply gcloud_cli_body_raises.
  erewrite retry_of_raising by apply gcloud_cli_body_raises.
  cbn [processes requests]. rewrite <- !(assoc_L (++)). cbn [app].
  rewrite !length_app. cbn [length].
  by replace (length (processes w) + 1 + 1) with (length (processes w) + 2)
    by lia.
Qed.

Lemma gcloud_cli_never_returns (command : string) w :
  is_returned (gcloud_cli E value json_loads command w).2 = false.
Proof. by rewrite gcloud_cli_three_tries. Qed.

(** Three failures: the error of the third process, which carries its
    captured standard error. *)
Lemma gcloud_cli_three_failures (command : string) w :
  exit_status (spawn E (length (processes w) + 2) (cli_line command)) ≠ 0%Z →
  (gcloud_cli E value json_loads command w).2 =
  Raised
    (let p := spawn E (length (processes w) + 2) (cli_line command) in
     CalledProcessError (exit_status p) (Some (out p)) (Some (err p))).
Proof.
  intros Hfail. rewrite gcloud_cli_three_tries. cbn [snd]. cbv zeta.
  by rewrite (proj2 (Z.eqb_neq _ _) Hfail).
Qed.

End cli.

(** C3.  The CLI fails on the first two tries and succeeds on the third,
    printing a JSON document: the wrapped call does not return the parsed
    document, it raises an [Exception] with the standard error of the
    third try. *)
Theorem gcloud_cli_flaky_raises :
  gcloud_cli flaky string Some "run services list" empty_world =
  ({| processes := [cli_line "run services list";
                    cli_line "run services list";
                    cli_line "run services list"];
      requests := [] |}, Raised (Exception (Some ""))).
Proof. reflexivity. Qed.

(** C10.  When the CLI process succeeds at each try, the JSON parsing
    step raises at each try, the name [json] being unbound in the module;
    the wrapped call starts three processes, never returns a value, and
    raises an [Exception] that carries the standard error of the last
    process. *)
Theorem gcloud_cli_raises_on_success (E : environment) (value : Type)
    (json_loads : string → option value) (command : string) (w : world) :
  (∀ i, i < 3 →
     exit_status (spawn E (length (processes w) + i) (cli_line command)) = 0%Z) →
  load_global "json" w = (w, Raised (NameError "json")) ∧
  gcloud_cli_body E value json_loads command w =
    ({| processes := processes w ++ [cli_line command];
        requests := requests w |},
     Raised (Exception
               (Some (err (spawn E (length (processes w)) (cli_line command)))))) ∧
  gcloud_cli E value json_loads command w =
    ({| processes := processes w ++ [cli_line command; cli_line command;
                                     cli_line command];
        requests := requests w |},
     Raised (Exception
               (Some (err (spawn E (length (processes w) + 2)
                             (cli_line command)))))) ∧
  is_returned (gcloud_cli E value json_loads command w).2 = false.
Proof.
  intros Hok. split; [done |]. split; [| split].
  - rewrite gcloud_cli_body_raises. cbv zeta.
    pose proof (Hok 0 ltac:(lia)) as H0. rewrite Nat.add_0_r in H0.
    by rewrite H0.
  - rewrite gcloud_cli_three_tries. cbv zeta.
    by rewrite (Hok 2 ltac:(lia)).
  - apply gcloud_cli_never_returns.
Qed.

Lemma gcloud_cli_raises_on_success_witness :
  gcloud_cli (steady "[]" None) string Some "run services list" empty_world =
  ({| processes := [cli_line "run services list";
                    cli_line "run services list";
                    cli_line "run services list"];
      requests := [] |}, Raised (Exception (Some ""))).
Proof.
  exact (proj1 (proj2 (proj2 (gcloud_cli_raises_on_success (steady "[]" None)
           string Some "run services list" empty_world (λ _ _, eq_refl))))).
Defined.

(** *** The test and its fixtures *)

Section lifecycle.
Variable E : environment.

Lemma subprocess_run_processes cmd c1 c2 chk w :
  processes (subprocess_run E cmd c1 c2 chk w).1 = processes w ++ [cmd].
Proof. unfold subprocess_run. by case_match. Qed.

Lemma check_call_processes args w :
  processes (check_call E args w).1 = processes w ++ [Argv args].
Proof.
  unfold check_call. run_step.
  pose proof (subprocess_run_processes (Argv args) false false true w) as Hp.
  by destruct (subprocess_run E (Argv args) false false true w) as [w' []].
Qed.

Lemma strip_decode_world captured w :
  (strip_decode captured w).1 = w.
Proof. unfold strip_decode. run_step. by repeat case_match. Qed.

(** The second fixture only starts processes. *)
Lemma url_token_processes service_name w :
  ∃ started,
    processes (before_yield (service_url_auth_token E) service_name w).1 =
    processes w ++ started.
Proof.
  cbn [before_yield service_url_auth_token]. run_step.
  unfold subprocess_run, strip_decode. run_step.
  repeat case_match; simplify_eq/=;
    rewrite <- ?(assoc_L (++)); by eexists.
Qed.

Lemma urlopen_processes req w :
  processes (urlopen E req w).1 = processes w.
Proof. unfold urlopen. by repeat case_match. Qed.

(** The test starts no process. *)
Lemma test_processes url_token w :
  processes (test_end_to_end E url_token w).1 = processes w.
Proof.
  destruct url_token as [url token].
  unfold test_end_to_end, authorized, urlopen, read, assert. run_step.
  by repeat case_match; simplify_eq/=.
Qed.

End lifecycle.

(** C7.  Once the deploy step has returned the service name, the run of
    the test item ends by starting the process that deletes that service,
    whatever happens in between: the second fixture failing, a request
    raising, an assertion failing, or the test passing. *)
Theorem teardown_runs_on_every_exit_path (E : environment) (w w1 : world)
    (service_name : string) :
  before_yield (deployed_service E) tt w = (w1, Returned service_name) →
  ∃ between,
    processes (runtest E w).1 =
    processes w1 ++ between ++ [Argv (delete_command E service_name)].
Proof.
  intros Hdeploy. unfold runtest. rewrite Hdeploy.
  destruct (url_token_processes E service_name w1) as [started Hstarted].
  destruct (before_yield (service_url_auth_token E) service_name w1)
    as [w2 [url_token|e]]; cbn [fst] in Hstarted.
  - pose proof (test_processes E url_token w2) as Htest.
    destruct (test_end_to_end E url_token w2) as [w3 c]. cbn [fst] in Htest.
    cbn [after_yield service_url_auth_token]. run_step.
    pose proof (check_call_processes E (delete_command E service_name) w3)
      as Hdel.
    cbn [after_yield deployed_service].
    destruct (check_call E (delete_command E service_name) w3) as [w5 t1].
    cbn [fst] in *. exists started. by rewrite Hdel, Htest, Hstarted, (assoc_L (++)).
  - pose proof (check_call_processes E (delete_command E service_name) w2)
      as Hdel.
    cbn [after_yield deployed_service].
    destruct (check_call E (delete_command E service_name) w2) as [w3 t].
    cbn [fst] in *. exists started. by rewrite Hdel, Hstarted, (assoc_L (++)).
Qed.

Lemma teardown_runs_on_every_exit_path_witness :
  call (runtest (steady "https://svc.run.app" (Some (500%Z, "error")))
          empty_world).2 = Errored (HTTPError 500) ∧
  ∃ between,
    processes (runtest (steady "https://svc.run.app" (Some (500%Z, "error")))
                 empty_world).1 =
    processes (before_yield
                 (deployed_service
                    (steady "https://svc.run.app" (Some (500%Z, "error"))))
                 tt empty_world).1
    ++ between
    ++ [Argv (delete_command
                (steady "https://svc.run.app" (Some (500%Z, "error")))
                "filesystem-5f0c7e2a")].
Proof.
  split; [reflexivity |].
  exact (teardown_runs_on_every_exit_path
           (steady "https://svc.run.app" (Some (500%Z, "error")))
           empty_world _ "filesystem-5f0c7e2a" eq_refl).
Defined.

(** C9, as stated, fails: the date token is not locale-independent.  At
    the same date and on the same responses the test passes in the C
    locale and fails under a locale with other day and month names,
    because the token it looks for is another one. *)
Lemma date_token_depends_on_locale :
  (test_end_to_end (steady "" (Some (200%Z, "mounted Thu-Feb-29-07")))
     ("https://svc.run.app", "t") empty_world).2 = Returned tt ∧
  (test_end_to_end
     (in_locale dutch (steady "" (Some (200%Z, "mounted Thu-Feb-29-07"))))
     ("https://svc.run.app", "t") empty_world).2 = Raised AssertionError ∧
  date_token C_locale sample_date = str_of "Thu-Feb-29-07" ∧
  date_token dutch sample_date = str_of "do-feb-29-07".
Proof. repeat split; reflexivity. Qed.

Lemma date_token_parts (l : locale) (dt : datetime) :
  date_token l dt =
  nth (Z.to_nat (weekday dt)) (abday l) [] ++ str_of "-" ++
  nth (Z.to_nat (month dt - 1)) (abmon l) [] ++ str_of "-" ++
  str_of (two_digits (day dt)) ++ str_of "-" ++ str_of (two_digits (hour dt)).
Proof.
  unfold date_token. cbn [strftime].
  replace (Ascii.eqb "%" "%") with true by reflexivity.
  unfold directive. cbn [Ascii.eqb Bool.eqb]. cbv iota.
  by rewrite !app_nil_r.
Qed.

(** C9, amended.  The test passes exactly when [Request] takes the
    service URL and the URL of the mounted path, the first call of
    [urlopen], a GET of the service URL, ends with a response of status
    200, the second, a GET of the mounted path, ends with a response of
    status 200 whose body can be read, and the decoded body contains the
    date token; a passing test has opened exactly these two requests,
    each with the bearer token, and no run opens any other.  The token
    is the abbreviated weekday name and month name of the [LC_TIME]
    locale of the process and the day and the hour of the UTC time on
    two digits, joined by dashes.  On a service URL without a scheme
    [Request] raises [ValueError] and nothing is opened. *)
Theorem test_end_to_end_verifies (E : environment)
    (service_url auth_token : string) (w : world) :
  ((test_end_to_end E (service_url, auth_token) w).2 = Returned tt ↔
   takes_url E service_url = true ∧
   takes_url E (service_url +:+ "/mnt/nfs/filestore") = true ∧
   ∃ read1 body2 text,
     serve E (length (requests w)) (bearer service_url auth_token)
       = Responded (Some 200%Z) read1 ∧
     serve E (S (length (requests w)))
       (bearer (service_url +:+ "/mnt/nfs/filestore") auth_token)
       = Responded (Some 200%Z) (Returned body2) ∧
     decode body2 = Some text ∧
     contains (date_token (LC_TIME E) (utcnow E)) text = true) ∧
  ((test_end_to_end E (service_url, auth_token) w).2 = Returned tt →
   requests (test_end_to_end E (service_url, auth_token) w).1 =
     requests w ++
     [bearer service_url auth_token;
      bearer (service_url +:+ "/mnt/nfs/filestore") auth_token]) ∧
  (∃ k, requests (test_end_to_end E (service_url, auth_token) w).1 =
     requests w ++
     take k [bearer service_url auth_token;
             bearer (service_url +:+ "/mnt/nfs/filestore") auth_token]) ∧
  get_method (bearer service_url auth_token) = "GET" ∧
  get_method (bearer (service_url +:+ "/mnt/nfs/filestore") auth_token)
    = "GET" ∧
  headers (bearer service_url auth_token)
    = [("Authorization", "Bearer " +:+ auth_token)] ∧
  headers (bearer (service_url +:+ "/mnt/nfs/filestore") auth_token)
    = [("Authorization", "Bearer " +:+ auth_token)] ∧
  date_token (LC_TIME E) (utcnow E) =
    nth (Z.to_nat (weekday (utcnow E))) (abday (LC_TIME E)) [] ++ str_of "-" ++
    nth (Z.to_nat (month (utcnow E) - 1)) (abmon (LC_TIME E)) [] ++
    str_of "-" ++ str_of (two_digits (day (utcnow E))) ++ str_of "-" ++
    str_of (two_digits (hour (utcnow E))) ∧
  (has_scheme service_url = false →
   test_end_to_end E (service_url, auth_token) w = (w, Raised ValueError)).
Proof.
  split; [| split; [| split; [| split; [done | split; [done | split;
    [done | split; [done | split; [apply date_token_parts |] ] ] ] ] ] ] ].
  - unfold test_end_to_end, authorized, urlopen, read, assert. run_step.
    destruct (takes_url E service_url) eqn:Hu1.
    2:{ split; [done | by intros [? _]]. }
    destruct (serve E (length (requests w)) _) as [st1 rd1 | e1] eqn:H1.
    2:{ split; [done | intros (_ & _ & ? & ? & ? & ? & _); done]. }
    cbn [fst snd].
    destruct (bool_decide (st1 = Some 200%Z)) eqn:Hs1.
    2:{ split; [done |]. intros (_ & _ & ? & ? & ? & [= -> _] & _).
        by rewrite bool_decide_eq_true_2 in Hs1. }
    apply bool_decide_eq_true_1 in Hs1 as ->.
    destruct (takes_url E (service_url +:+ "/mnt/nfs/filestore")) eqn:Hu2.
    2:{ split; [done | by intros (_ & ? & _)]. }
    cbn [requests]. rewrite length_app. cbn [length].
    replace (length (requests w) + 1) with (S (length (requests w))) by lia.
    destruct (serve E (S (length (requests w))) _) as [st2 rd2 | e2] eqn:H2.
    2:{ split; [done | intros (_ & _ & ? & ? & ? & _ & ? & _); done]. }
    cbn [fst snd].
    destruct (bool_decide (st2 = Some 200%Z)) eqn:Hs2.
    2:{ split; [done |]. intros (_ & _ & ? & ? & ? & _ & [= -> _] & _).
        by rewrite bool_decide_eq_true_2 in Hs2. }
    apply bool_decide_eq_true_1 in Hs2 as ->.
    destruct rd2 as [body2 | e2].
    2:{ split; [done | intros (_ & _ & ? & ? & ? & _ & ? & _); done]. }
    destruct (decode body2) as [text|] eqn:Hd.
    2:{ split; [done |].
        intros (_ & _ & ? & ? & ? & _ & [= <-] & ? & _). congruence. }
    destruct (contains _ text) eqn:Hin.
    + split; [| done]. intros _. split; [done |]. split; [done |].
      by exists rd1, body2, text.
    + split; [done |].
      intros (_ & _ & ? & ? & ? & _ & [= <-] & ? & ?). congruence.
  - unfold test_end_to_end, authorized, urlopen, read, assert. run_step.
    repeat case_match; simplify_eq/=; try done.
    all: intros _; by rewrite <- (assoc_L (++)).
  - unfold test_end_to_end, authorized, urlopen, read, assert. run_step.
    repeat case_match; simplify_eq/=;
      first [ by exists 0; rewrite app_nil_r
            | by exists 1
            | exists 2; by rewrite <- (assoc_L (++)) ].
  - intros Hscheme. unfold test_end_to_end, authorized. run_step.
    destruct (takes_url E service_url) eqn:Htakes; [| done].
    apply takes_url_scheme in Htakes. congruence.
Qed.

End VerifierFacts.

(** ** More on the publisher: what a run touches, and the staging copy *)

Module PublisherBehaviour.
Import Py Fs Rt Publisher Tree PyFacts FsFacts PublisherFacts.

Lemma store_all_cons (b key : string) (keys : list string) m :
  store_all b (key :: keys) m = store_all b keys (<[(b, key) := key]> m).
Proof. reflexivity. Qed.

Lemma lookup_store_all_other (b : string) (keys : list string) m
    (b' k' : string) :
  b' ≠ b ∨ k' ∉ keys → store_all b keys m !! (b', k') = m !! (b', k').
Proof.
  revert m. induction keys as [|key keys IH]; intros m Hout; [done |].
  rewrite store_all_cons, IH.
  - apply lookup_insert_ne. intros [= -> ->].
    destruct Hout as [Hb | Hk]; [done |]. apply Hk. by left.
  - destruct Hout as [Hb | Hk]; [by left |]. right.
    intros Hin. apply Hk. by right.
Qed.

Lemma store_all_twice (b : string) (keys : list string) m :
  store_all b keys (store_all b keys m) = store_all b keys m.
Proof.
  apply map_eq. intros [b' k'].
  destruct (decide (b' = b)) as [-> | Hb].
  - destruct (decide (k' ∈ keys)) as [Hin | Hout].
    + by rewrite !lookup_store_all.
    + by rewrite lookup_store_all_other by (by right).
  - by rewrite lookup_store_all_other by (by left).
Qed.

(** For any behaviour of the network, a run of the loop is the run of a
    prefix of the keys: [j] uploads accepted, then either the end of the
    list or one refused request. *)
Lemma upload_keys_prefix (network : nat → bool) (b : string)
    (keys : list string) w :
  ∃ j, j ≤ length keys ∧
    upload_keys network b keys w =
    ({| objects := store_all b (take j keys) (objects w);
        writes := writes w ++ (write_of b <$> take j keys);
        requests :=
          requests w + (if decide (j = length keys) then j else S j) |},
     if decide (j = length keys) then Returned tt
     else Raised GoogleCloudError).
Proof.
  revert w. induction keys as [|key keys IH]; intros [o ws r].
  - exists 0. split; [done |]. cbn. by rewrite app_nil_r, Nat.add_0_r.
  - rewrite upload_keys_cons. cbn [requests objects writes].
    destruct (network r).
    + match goal with |- context [upload_keys _ _ keys ?w1] =>
        destruct (IH w1) as (j & Hj & ->) end.
      exists (S j). split; [simpl; lia |].
      cbn [requests objects writes take length]. rewrite fmap_cons.
      rewrite <- (assoc_L (++)). cbn [app].
      rewrite store_all_cons.
      repeat case_decide; try lia; do 2 f_equal; lia.
    + exists 0. split; [lia |]. rewrite decide_False by (simpl; lia).
      cbn. rewrite app_nil_r. do 2 f_equal. lia.
Qed.

Lemma filter_none {A} (P : A → Prop) `{!∀ x, Decision (P x)} (l : list A) :
  (∀ x, x ∈ l → ¬ P x) → filter P l = [].
Proof.
  induction l as [|x l IH]; intros Hno; [done |].
  rewrite filter_cons, decide_False by (apply Hno; by left).
  apply IH. intros y Hy. apply Hno. by right.
Qed.

(** X1.  The staged list depends only on the names directly in the
    source directory: two directories with the same names there, listed
    in any two orders, give the same staged paths up to order, whatever
    the data of the files and the contents of the subdirectories. *)
Theorem staged_list_depends_on_names_only (o1 o2 : ScanOrder)
    (temp_dir : string) (d d' : list node) :
  names d ≡ₚ names d' →
  (@_create_dags_list o1 temp_dir d).2 ≡ₚ (@_create_dags_list o2 temp_dir d').2.
Proof.
  intros Hnames. rewrite (@dags_perm o1), (@dags_perm o2).
  destruct (glob_finds temp_dir); [by rewrite Hnames | done].
Qed.

Lemma staged_list_depends_on_names_only_witness :
  (@_create_dags_list creation_order sample_temp_dir
     [File "etl.py" "v1"; Dir "sql" []; File "load.py" ""]).2
  ≡ₚ (@_create_dags_list reverse_order sample_temp_dir
        [Dir "sql" [File "q.py" ""]; File "load.py" "x"; File "etl.py" "v2"]).2.
Proof.
  apply (staged_list_depends_on_names_only creation_order reverse_order).
  exact (Permutation_cons_append ["sql"; "load.py"] "etl.py").
Defined.

(** X2.  When no name directly in the source directory is both selected
    by the listing pattern and kept by the exclusion patterns, the staged
    list is empty and the publish step returns without a single request:
    the store is as it was. *)
Theorem nothing_to_publish `{ScanOrder} (network : nat → bool)
    (temp_dir : string) (d : list node) (bucket_name : string) (w : cloud) :
  (∀ nm, nm ∈ names d →
     matches_listing nm = false ∨ matches_exclusion nm = true) →
  (_create_dags_list temp_dir d).2 = [] ∧
  upload_dags_to_composer network temp_dir d bucket_name w = (w, Returned tt).
Proof.
  intros Hnone.
  assert (Hdags : (_create_dags_list temp_dir d).2 = []).
  { apply Permutation_nil_r. rewrite dags_perm.
    destruct (glob_finds temp_dir); [| done].
    rewrite filter_none; [done |].
    intros nm Hnm [Hl Hx]. destruct (Hnone nm Hnm) as [Hf | Ht].
    - by rewrite Hf in Hl.
    - by rewrite Ht in Hx. }
  split; [done |]. rewrite run_as_upload_keys, Hdags. reflexivity.
Qed.

Lemma nothing_to_publish_witness :
  upload_dags_to_composer (λ _, false) sample_temp_dir idle_dir "dag-bucket"
    empty_cloud = (empty_cloud, Returned tt).
Proof.
  refine (proj2 (nothing_to_publish (λ _, false) sample_temp_dir idle_dir
                   "dag-bucket" empty_cloud _)).
  intros nm Hnm. cbn in Hnm.
  repeat (apply elem_of_cons in Hnm as [-> | Hnm];
          [vm_compute; tauto |]).
  by apply elem_of_nil in Hnm.
Defined.








(** X6.  Every write of a run in a directory with valid names is of a
    key that is a name directly in the source directory, ends in [.py],
    does not start with a dot and holds no slash, to the named bucket,
    with the key as content. *)
Theorem written_keys_are_python_names `{ScanOrder} (network : nat → bool)
    (temp_dir : string) (d : list node) (bucket_name : string) (w : cloud)
    (b k c : string) :
  valid_dir d →
  (b, k, c) ∈ writes (upload_dags_to_composer network temp_dir d bucket_name w).1 →
  (b, k, c) ∈ writes w ∨
  (b = bucket_name ∧ c = k ∧ k ∈ names d ∧ endswith ".py" k ∧
   ishidden k = false ∧ has_char "/" k = false).
Proof.
  intros Hd. rewrite run_as_upload_keys.
  destruct (upload_keys_prefix network bucket_name
              (key_of temp_dir <$> (_create_dags_list temp_dir d).2) w)
    as (j & _ & ->).
  cbn [fst writes]. intros Hin.
  apply elem_of_app in Hin as [Hold | Hnew]; [by left | right].
  apply list_elem_of_fmap in Hnew as (key & [= -> -> ->] & Hkey).
  apply (subseteq_take j) in Hkey.
  apply list_elem_of_fmap in Hkey as (dag & -> & Hdag).
  destruct (staged_entry temp_dir d dag Hd Hdag)
    as (e & He & _ & -> & Hl & _).
  apply matches_listing_spec in Hl as [Hhid Hpy].
  assert (Hnm : node_name e ∈ names d) by by apply list_elem_of_fmap_2.
  destruct Hd as [Hvalid _]. rewrite Forall_forall in Hvalid.
  destruct (Hvalid _ Hnm) as [_ Hslash]. done.
Qed.

Lemma written_keys_are_python_names_witness :
  ("dag-bucket", "etl.py", "etl.py") ∈ writes empty_cloud ∨
  ("dag-bucket" = "dag-bucket" ∧ "etl.py" = "etl.py" ∧
   "etl.py" ∈ names sample_dir ∧ endswith ".py" "etl.py" ∧
   ishidden "etl.py" = false ∧ has_char "/" "etl.py" = false).
Proof.
  refine (written_keys_are_python_names (λ _, true) sample_temp_dir sample_dir
            "dag-bucket" empty_cloud "dag-bucket" "etl.py" "etl.py"
            sample_dir_valid _).
  vm_compute. left.
Defined.

(** X7.  The ignore function of the selection step returns exactly the
    names of the directory at hand that are [__init__.py] or end in
    [_test.py] (the match is case-sensitive and on the whole name). *)
Theorem files_to_ignore_exact (nms : list string) (nm : string) :
  nm ∈ ignore_patterns ["__init__.py"; "*_test.py"] nms ↔
  nm ∈ nms ∧ excluded nm.
Proof.
  split.
  - intros Hin. assert (Hnm : nm ∈ nms).
    { by apply elem_of_ignore_patterns in Hin as [? _]. }
    split; [done |].
    apply matches_exclusion_spec, Is_true_true.
    by apply (ignored_iff nms nm Hnm).
  - intros [Hnm Hx]. apply (ignored_iff nms nm Hnm).
    by apply Is_true_true, matches_exclusion_spec.
Qed.

(** *** The staging copy, at every depth *)

(** Induction on a tree, with the hypothesis for every entry of a
    directory. *)
Lemma node_ind_nested (P : node → Prop) :
  (∀ nm data, P (File nm data)) →
  (∀ nm sub, Forall P sub → P (Dir nm sub)) →
  ∀ n, P n.
Proof.
  intros HF HD. fix IH 1. intros [nm data | nm sub]; [apply HF |].
  apply HD. induction sub as [|e sub IHsub]; constructor;
    [apply IH | apply IHsub].
Qed.

(** A path of a file under an entry starts with the entry's name. *)
Lemma files_under_head (n : node) (p : list string) (data : string) :
  (p, data) ∈ files_under n → ∃ rest, p = node_name n :: rest.
Proof.
  destruct n as [nm dt | nm sub]; cbn [files_under node_name].
  - intros Hin. apply list_elem_of_singleton in Hin as [= -> ->]. by exists [].
  - intros Hin. apply list_elem_of_fmap in Hin as ([p' d'] & [= -> ->] & _).
    by exists p'.
Qed.

Lemma copy_unless_Some (ignored_names : list string) (copy : node → node)
    (n n' : node) :
  copy_unless ignored_names copy n = Some n' ↔
  (node_name n ∉ ignored_names) ∧ n' = copy n.
Proof.
  unfold copy_unless. case_bool_decide; split.
  - done.
  - by intros [? _].
  - by intros [= <-].
  - by intros [_ ->].
Qed.

(** The files under the copy of the entries of a directory, given the
    same for the copy of each entry. *)
Lemma files_of_copied (l : list node) (pd : list string * string) :
  Forall (λ n, ∀ p data,
            (p, data) ∈ files_under
                          (copy_entry
                             (ignore_patterns ["__init__.py"; "*_test.py"]) n)
            ↔ (p, data) ∈ files_under n ∧ kept (tail p)) l →
  pd ∈ files_of (staged l) ↔ pd ∈ files_of l ∧ kept pd.1.
Proof.
  intros Hl. rewrite Forall_forall in Hl. destruct pd as [p data].
  unfold files_of, staged, copytree. rewrite !list_elem_of_bind. split.
  - intros (n' & Hin & Hn'). apply list_elem_of_omap in Hn' as (n & Hn & Hc).
    apply copy_unless_Some in Hc as [Hkeep ->].
    apply (Hl n Hn) in Hin as [Hin Hrest].
    split; [by exists n |].
    destruct (files_under_head n p data Hin) as [rest ->].
    constructor; [| done]. intros Hx. apply Hkeep.
    apply files_to_ignore_exact. split; [| done].
    by apply list_elem_of_fmap_2.
  - intros [(n & Hin & Hn) Hkept].
    destruct (files_under_head n p data Hin) as [rest ->].
    apply Forall_cons in Hkept as [Hname Hrest].
    exists (copy_entry (ignore_patterns ["__init__.py"; "*_test.py"]) n).
    split; [by apply (Hl n Hn) |].
    apply list_elem_of_omap. exists n. split; [done |].
    apply copy_unless_Some. split; [| done].
    intros Hign. by apply files_to_ignore_exact in Hign as [_ Hx].
Qed.

Lemma files_under_copied (n : node) (p : list string) (data : string) :
  ((p, data) ∈ files_under
                 (copy_entry (ignore_patterns ["__init__.py"; "*_test.py"]) n))
  ↔ ((p, data) ∈ files_under n ∧ kept (tail p)).
Proof.
  revert p data. induction n as [nm dt | nm sub IH] using node_ind_nested;
    intros p data.
  - cbn [copy_entry files_under]. rewrite list_elem_of_singleton. split.
    + intros [= -> ->]. split; [done | constructor].
    + by intros [? _].
  - cbn [copy_entry files_under]. rewrite !list_elem_of_fmap.
    pose proof (files_of_copied sub) as Hsub.
    unfold files_of, staged, copytree in Hsub. split.
    + intros (pd & [= -> ->] & Hpd). apply (Hsub pd IH) in Hpd as [Hpd Hk].
      split; [by exists pd | done].
    + intros [(pd & [= -> ->] & Hpd) Hk]. exists pd. split; [done |].
      by apply (Hsub pd IH).
Qed.

(** X8.  The staging directory holds, at every depth, exactly the files
    of the source directory no component of whose path is [__init__.py]
    or ends in [_test.py], each at the same path with the same data: an
    excluded file is left out, an excluded directory is left out with
    everything under it, and nothing else is lost or altered. *)
Theorem staged_files_exact (d : list node) (path : list string)
    (data : string) :
  (path, data) ∈ files_of (staged d) ↔
  (path, data) ∈ files_of d ∧ Forall (λ nm, ¬ excluded nm) path.
Proof.
  apply (files_of_copied d (path, data)).
  apply Forall_forall. intros n _ p dt. apply files_under_copied.
Qed.

End PublisherBehaviour.

(** ** More on the verifier: the fixtures and the failures of a run *)

Module VerifierBehaviour.
Import Rt Verifier Commands VerifierFacts.

Section fixtures.
Variable E : environment.

(** One process started with [check=True]. *)
Lemma subprocess_run_checked (cmd : command) (c1 c2 : bool) w :
  subprocess_run E cmd c1 c2 true w =
  ({| processes := processes w ++ [cmd]; requests := requests w |},
   let p := spawn E (length (processes w)) cmd in
   if (exit_status p =? 0)%Z
   then Returned {| returncode := exit_status p;
                    stdout := captured c1 (out p);
                    stderr := captured c2 (err p) |}
   else Raised (CalledProcessError (exit_status p) (captured c1 (out p))
                  (captured c2 (err p)))).
Proof.
  unfold subprocess_run. cbn [andb].
  by destruct (exit_status _ =? 0)%Z.
Qed.

Lemma check_call_eq (args : list string) w :
  check_call E args w =
  ({| processes := processes w ++ [Argv args]; requests := requests w |},
   let p := spawn E (length (processes w)) (Argv args) in
   if (exit_status p =? 0)%Z then Returned tt
   else Raised (CalledProcessError (exit_status p) None None)).
Proof.
  unfold check_call. run_step. rewrite subprocess_run_checked. cbv zeta.
  by destruct (exit_status _ =? 0)%Z.
Qed.

(** The first fixture up to its [yield]. *)
Lemma deploy_eq w :
  before_yield (deployed_service E) tt w =
  match environ E "CONNECTOR" with
  | None => (w, Raised (KeyError "CONNECTOR"))
  | Some connector =>
      match environ E "IP_ADDRESS" with
      | None => (w, Raised (KeyError "IP_ADDRESS"))
      | Some ip_address =>
          ({| processes :=
                processes w ++ [Argv (build_command E connector ip_address)];
              requests := requests w |},
           let p := spawn E (length (processes w))
                      (Argv (build_command E connector ip_address)) in
           if (exit_status p =? 0)%Z
           then Returned ("filesystem-" +:+ SUFFIX E)
           else Raised (CalledProcessError (exit_status p) None None))
      end
  end.
Proof.
  cbn [before_yield deployed_service]. unfold getenv. run_step.
  destruct (environ E "CONNECTOR") as [connector|]; [| done].
  destruct (environ E "IP_ADDRESS") as [ip_address|]; [| done].
  rewrite check_call_eq. fold (build_command E connector ip_address).
  cbv zeta. by destruct (exit_status _ =? 0)%Z.
Qed.

(** The second fixture up to its [yield]. *)
Lemma url_token_eq (service_name : string) w :
  before_yield (service_url_auth_token E) service_name w =
  let p1 := spawn E (length (processes w))
              (Argv (describe_command E service_name)) in
  let p2 := spawn E (S (length (processes w))) (Argv token_command) in
  let w1 := {| processes :=
                 processes w ++ [Argv (describe_command E service_name)];
               requests := requests w |} in
  let w2 := {| processes :=
                 processes w ++ [Argv (describe_command E service_name);
                                 Argv token_command];
               requests := requests w |} in
  if negb (exit_status p1 =? 0)%Z
  then (w1, Raised (CalledProcessError (exit_status p1) (Some (out p1)) None))
  else if decode (strip (out p1)) is None
  then (w1, Raised UnicodeDecodeError)
  else if negb (exit_status p2 =? 0)%Z
  then (w2, Raised (CalledProcessError (exit_status p2) (Some (out p2)) None))
  else if decode (strip (out p2)) is None
  then (w2, Raised UnicodeDecodeError)
  else (w2, Returned (strip (out p1), strip (out p2))).
Proof.
  cbn [before_yield service_url_auth_token]. run_step.
  rewrite subprocess_run_checked. cbv zeta.
  fold (describe_command E service_name). fold token_command.
  destruct (exit_status _ =? 0)%Z; cbn [negb]; [| done].
  cbn [stdout captured]. unfold strip_decode at 1. run_step.
  destruct (decode (strip _)); [| done].
  rewrite subprocess_run_checked. cbv zeta.
  cbn [processes requests]. rewrite length_app. cbn [length].
  replace (length (processes w) + 1) with (S (length (processes w))) by lia.
  rewrite <- (assoc_L (++)). cbn [app].
  destruct (exit_status _ =? 0)%Z; cbn [negb]; [| done].
  cbn [stdout captured]. unfold strip_decode. run_step.
  by destruct (decode (strip _)).
Qed.

Lemma test_requests_only url_token w :
  ∃ sent, (test_end_to_end E url_token w).1 =
          {| processes := processes w; requests := requests w ++ sent |}.
Proof.
  destruct url_token as [url token].
  unfold test_end_to_end, authorized, urlopen, read, assert. run_step.
  repeat case_match; simplify_eq/=; rewrite <- ?(assoc_L (++));
    first [by eexists | exists []; rewrite app_nil_r; by destruct w0].
Qed.

End fixtures.

(** X9.  Only the third try decides what the wrapped CLI call raises:
    when the third process exits with a non-zero status the call raises
    that process's [CalledProcessError], with its exit status and its
    captured output and error streams, after exactly three processes with
    the same command line, whatever the first two did. *)
Theorem gcloud_cli_third_try_decides (E : environment) (value : Type)
    (json_loads : string → option value) (command : string) (w : world) :
  exit_status (spawn E (length (processes w) + 2) (cli_line command)) ≠ 0%Z →
  gcloud_cli E value json_loads command w =
  ({| processes := processes w ++ [cli_line command; cli_line command;
                                   cli_line command];
      requests := requests w |},
   Raised (CalledProcessError
             (exit_status (spawn E (length (processes w) + 2) (cli_line command)))
             (Some (out (spawn E (length (processes w) + 2) (cli_line command))))
             (Some (err (spawn E (length (processes w) + 2) (cli_line command)))))).
Proof.
  intros Hfail. rewrite gcloud_cli_three_tries. cbv zeta.
  by rewrite (proj2 (Z.eqb_neq _ _) Hfail).
Qed.

Lemma gcloud_cli_third_try_decides_witness :
  (gcloud_cli (failing_from 2 "[]" None) string Some "run services list"
     empty_world).2
  = Raised (CalledProcessError 2 (Some "") (Some "ERROR: not found")).
Proof.
  exact (f_equal snd
           (gcloud_cli_third_try_decides (failing_from 2 "[]" None) string Some
              "run services list" empty_world ltac:(discriminate))).
Defined.

(** X10.  When the build fails, nothing is torn down: with both
    variables set and a build process that exits with a non-zero status,
    the run starts that one process, reports its [CalledProcessError] as
    a setup error, does not call the test, sends no request and starts no
    delete process. *)
Theorem failed_build_is_not_torn_down (E : environment) (w : world)
    (connector ip_address : string) :
  environ E "CONNECTOR" = Some connector →
  environ E "IP_ADDRESS" = Some ip_address →
  exit_status (spawn E (length (processes w))
                 (Argv (build_command E connector ip_address))) ≠ 0%Z →
  runtest E w =
  ({| processes := processes w ++ [Argv (build_command E connector ip_address)];
      requests := requests w |},
   {| setup := Errored
                 (CalledProcessError
                    (exit_status (spawn E (length (processes w))
                                    (Argv (build_command E connector ip_address))))
                    None None);
      call := NotRun;
      teardown := Done |}).
Proof.
  intros Hc Hip Hfail. unfold runtest. rewrite deploy_eq, Hc, Hip. cbv zeta.
  by rewrite (proj2 (Z.eqb_neq _ _) Hfail).
Qed.

Lemma failed_build_is_not_torn_down_witness :
  processes (runtest (failing_from 0 "" None) empty_world).1 =
  [Argv (build_command (failing_from 0 "" None) "10.0.0.2" "10.0.0.2")].
Proof.
  exact (f_equal (λ r, processes r.1)
           (failed_build_is_not_torn_down (failing_from 0 "" None) empty_world
              "10.0.0.2" "10.0.0.2" eq_refl eq_refl ltac:(discriminate))).
Defined.

(** X11.  A missing [CONNECTOR] or [IP_ADDRESS] stops the run before
    anything is started: the setup reports the [KeyError] of the first
    missing variable, the world is unchanged, the test is not called. *)
Theorem missing_variable_starts_nothing (E : environment) (w : world) :
  environ E "CONNECTOR" = None ∨ environ E "IP_ADDRESS" = None →
  runtest E w =
  (w, {| setup :=
           Errored (KeyError (if environ E "CONNECTOR" is None
                              then "CONNECTOR" else "IP_ADDRESS"));
         call := NotRun;
         teardown := Done |}).
Proof.
  intros Hmiss. unfold runtest. rewrite deploy_eq.
  destruct (environ E "CONNECTOR") as [connector|]; [| done].
  destruct Hmiss as [Hc | Hip]; [done |]. by rewrite Hip.
Qed.

Lemma missing_variable_starts_nothing_witness :
  runtest bare empty_world =
  (empty_world,
   {| setup := Errored (KeyError "CONNECTOR"); call := NotRun;
      teardown := Done |}).
Proof.
  exact (missing_variable_starts_nothing bare empty_world (or_introl eq_refl)).
Defined.

(** X12.  A run whose setup succeeds starts exactly four processes, in
    this order: the build, the describe of the deployed service, the
    identity token, and the delete of the same service; the test itself
    starts none, and this holds whether the test passes or fails. *)
Theorem run_starts_four_processes (E : environment) (w : world) :
  setup (runtest E w).2 = Done →
  ∃ connector ip_address,
    environ E "CONNECTOR" = Some connector ∧
    environ E "IP_ADDRESS" = Some ip_address ∧
    processes (runtest E w).1 =
    processes w ++
    [Argv (build_command E connector ip_address);
     Argv (describe_command E ("filesystem-" +:+ SUFFIX E));
     Argv token_command;
     Argv (delete_command E ("filesystem-" +:+ SUFFIX E))].
Proof.
  unfold runtest. rewrite deploy_eq.
  destruct (environ E "CONNECTOR") as [connector|]; [| done].
  destruct (environ E "IP_ADDRESS") as [ip_address|]; [| done].
  cbv zeta. destruct (exit_status _ =? 0)%Z; [| done].
  rewrite url_token_eq. cbv zeta.
  destruct (negb _).
  { by destruct (after_yield _ _ _). }
  destruct (decode _).
  2:{ by destruct (after_yield _ _ _). }
  destruct (negb _).
  { by destruct (after_yield _ _ _). }
  destruct (decode _).
  2:{ by destruct (after_yield _ _ _). }
  match goal with |- context [test_end_to_end E ?ut ?w2] =>
    destruct (test_requests_only E ut w2) as [sent Hsent];
    destruct (test_end_to_end E ut w2) as [w3 c] end.
  cbn [fst] in Hsent. subst w3.
  cbn [after_yield service_url_auth_token deployed_service]. run_step.
  rewrite check_call_eq. cbn [fst snd processes requests].
  intros _. exists connector, ip_address. split; [done |]. split; [done |].
  rewrite <- !(assoc_L (++)). done.
Qed.

Lemma run_starts_four_processes_witness :
  ∃ connector ip_address,
    environ (steady "https://svc.run.app" (Some (503%Z, "")))  "CONNECTOR"
      = Some connector ∧
    environ (steady "https://svc.run.app" (Some (503%Z, ""))) "IP_ADDRESS"
      = Some ip_address ∧
    processes (runtest (steady "https://svc.run.app" (Some (503%Z, "")))
                 empty_world).1 =
    processes empty_world ++
    [Argv (build_command (steady "https://svc.run.app" (Some (503%Z, "")))
             connector ip_address);
     Argv (describe_command (steady "https://svc.run.app" (Some (503%Z, "")))
             ("filesystem-" +:+
              SUFFIX (steady "https://svc.run.app" (Some (503%Z, "")))));
     Argv token_command;
     Argv (delete_command (steady "https://svc.run.app" (Some (503%Z, "")))
             ("filesystem-" +:+
              SUFFIX (steady "https://svc.run.app" (Some (503%Z, "")))))].
Proof.
  exact (run_starts_four_processes
           (steady "https://svc.run.app" (Some (503%Z, ""))) empty_world
           eq_refl).
Defined.

(** X13.  No request is sent unless both fixtures are set up: in a run
    whose setup does not succeed the test is not called and the list of
    HTTP requests is what it was. *)
Theorem no_request_without_setup (E : environment) (w : world) :
  setup (runtest E w).2 ≠ Done →
  call (runtest E w).2 = NotRun ∧ requests (runtest E w).1 = requests w.
Proof.
  unfold runtest. rewrite deploy_eq.
  destruct (environ E "CONNECTOR") as [connector|]; [| done].
  destruct (environ E "IP_ADDRESS") as [ip_address|]; [| done].
  cbv zeta. destruct (exit_status _ =? 0)%Z; [| done].
  rewrite url_token_eq. cbv zeta.
  destruct (negb _).
  { cbn [after_yield deployed_service]. rewrite check_call_eq. done. }
  destruct (decode _).
  2:{ cbn [after_yield deployed_service]. rewrite check_call_eq. done. }
  destruct (negb _).
  { cbn [after_yield deployed_service]. rewrite check_call_eq. done. }
  destruct (decode _).
  2:{ cbn [after_yield deployed_service]. rewrite check_call_eq. done. }
  match goal with |- context [test_end_to_end E ?ut ?w2] =>
    destruct (test_end_to_end E ut w2) as [w3 c] end.
  cbn [after_yield service_url_auth_token deployed_service]. run_step.
  rewrite check_call_eq. cbn [snd setup]. done.
Qed.

Lemma no_request_without_setup_witness :
  call (runtest (failing_from 1 "" (Some (200%Z, ""))) empty_world).2 = NotRun ∧
  requests (runtest (failing_from 1 "" (Some (200%Z, ""))) empty_world).1
    = requests empty_world.
Proof.
  exact (no_request_without_setup (failing_from 1 "" (Some (200%Z, "")))
           empty_world ltac:(discriminate)).
Defined.

(** X14.  The test stops at the first failure of its first step.  When
    [Request] refuses the service URL, as it does for a URL without a
    scheme, the test raises [ValueError] and opens nothing; when the
    first call of [urlopen] raises, or returns a response whose status is
    not 200, the test fails with that exception, or with
    [AssertionError], after that one call: the mounted path is never
    requested. *)
Theorem first_exchange_failure_stops_test (E : environment)
    (service_url auth_token : string) (w : world) :
  has_scheme service_url = false ∨
  (∀ read, serve E (length (requests w)) (bearer service_url auth_token)
           ≠ Responded (Some 200%Z) read) →
  test_end_to_end E (service_url, auth_token) w =
  if takes_url E service_url then
    ({| processes := processes w;
        requests := requests w ++ [bearer service_url auth_token] |},
     Raised
       match serve E (length (requests w)) (bearer service_url auth_token)
       with
       | Failed e => e
       | Responded _ _ => AssertionError
       end)
  else (w, Raised ValueError).
Proof.
  intros Hfail. unfold test_end_to_end, authorized, urlopen, read, assert.
  run_step.
  destruct (takes_url E service_url) eqn:Htakes; [| done].
  destruct Hfail as [Hscheme | Hnot].
  { apply takes_url_scheme in Htakes. congruence. }
  destruct (serve E (length (requests w)) _) as [st rd | e]; [| done].
  cbn [fst]. case_bool_decide as Hst; [| done].
  subst st. by destruct (Hnot rd).
Qed.

Lemma first_exchange_failure_stops_test_witness :
  test_end_to_end (steady "" (Some (204%Z, ""))) ("https://svc.run.app", "t")
    empty_world =
  ({| processes := [];
      requests := [bearer "https://svc.run.app" "t"] |},
   Raised AssertionError).
Proof.
  rewrite (first_exchange_failure_stops_test (steady "" (Some (204%Z, "")))
             "https://svc.run.app" "t" empty_world).
  - vm_compute. reflexivity.
  - right. intros read. vm_compute. discriminate.
Defined.

(** *** The body, the date token and the fixture values *)

(** X15.  A body of ASCII bytes always decodes, to the same characters:
    for such a body the last assertion of the test is a search for the
    token's bytes in the body's bytes. *)
Theorem decode_ascii (body : string) :
  Forall (λ c, (N_of_ascii c < 128)%N) (String.list_ascii_of_string body) →
  decode body = Some (str_of body).
Proof.
  unfold decode, str_of.
  induction body as [|c body IH]; intros Hascii; [done |].
  cbn [String.list_ascii_of_string] in *. rewrite fmap_cons.
  apply Forall_cons in Hascii as [Hc Hbody].
  cbn [utf8_decode]. rewrite (proj2 (N.ltb_lt _ _) Hc).
  by rewrite (IH Hbody).
Qed.

Lemma decode_ascii_witness :
  decode "mounted Thu-Feb-29-07" = Some (str_of "mounted Thu-Feb-29-07").
Proof.
  apply decode_ascii. apply (bool_decide_unpack _). by vm_compute.
Defined.

Lemma nth_in_range (names : list string) (i : nat) :
  i < length names → nth i names "" ∈ names.
Proof.
  revert i. induction names as [|nm names IH]; intros i Hi; [simpl in Hi; lia |].
  destruct i as [|i]; [by left | right]. apply IH. simpl in Hi. lia.
Qed.

Lemma str_of_append (a b : string) : str_of (a +:+ b) = str_of a ++ str_of b.
Proof.
  unfold str_of. induction a as [|c a IH]; [done |].
  rewrite PyFacts.append_String. cbn [String.list_ascii_of_string].
  rewrite !fmap_cons. by rewrite IH.
Qed.

Lemma length_str_of (a : string) : length (str_of a) = String.length a.
Proof.
  unfold str_of. rewrite length_fmap.
  induction a as [|c a IH]; [done |]. simpl. by rewrite IH.
Qed.

Lemma nth_str_of (names : list string) (i : nat) :
  nth i (str_of <$> names) [] = str_of (nth i names "").
Proof.
  revert i. induction names as [|nm names IH]; intros [|i]; try done.
  apply IH.
Qed.

(** X16.  In the C locale, for every date with a month from 1 to 12, the
    token is made of one of the seven English weekday abbreviations, one
    of the twelve month abbreviations and two two-digit numbers, joined
    by dashes: thirteen characters in all, whatever the year, the day and
    the hour. *)
Theorem date_token_shape (dt : datetime) :
  (1 ≤ month dt ≤ 12)%Z →
  ∃ a b, a ∈ day_abbr ∧ b ∈ month_abbr ∧
    date_token C_locale dt =
      str_of (a +:+ "-" +:+ b +:+ "-" +:+ two_digits (day dt) +:+ "-" +:+
              two_digits (hour dt)) ∧
    length (date_token C_locale dt) = 13.
Proof.
  intros Hmonth.
  assert (Hday : Z.to_nat (weekday dt) < 7).
  { unfold weekday.
    pose proof (Z.mod_pos_bound
                  (_ymd2ord (year dt) (month dt) (day dt) + 6) 7 eq_refl).
    lia. }
  assert (Hm : Z.to_nat (month dt - 1) < 12) by lia.
  exists (nth (Z.to_nat (weekday dt)) day_abbr ""),
         (nth (Z.to_nat (month dt - 1)) month_abbr "").
  split; [by apply nth_in_range |]. split; [by apply nth_in_range |].
  assert (Heq : date_token C_locale dt =
            str_of (nth (Z.to_nat (weekday dt)) day_abbr "" +:+ "-" +:+
                    nth (Z.to_nat (month dt - 1)) month_abbr "" +:+ "-" +:+
                    two_digits (day dt) +:+ "-" +:+ two_digits (hour dt))).
  { rewrite date_token_parts. cbn [C_locale abday abmon].
    rewrite !nth_str_of, !str_of_append. done. }
  split; [done |]. rewrite Heq, length_str_of.
  assert (Ha : String.length (nth (Z.to_nat (weekday dt)) day_abbr "") = 3).
  { apply (nth_in_range day_abbr) in Hday.
    revert Hday. generalize (nth (Z.to_nat (weekday dt)) day_abbr "").
    intros a Ha. cbn in Ha.
    repeat (apply elem_of_cons in Ha as [-> | Ha]; [reflexivity |]).
    by apply elem_of_nil in Ha. }
  assert (Hb : String.length (nth (Z.to_nat (month dt - 1)) month_abbr "") = 3).
  { apply (nth_in_range month_abbr) in Hm.
    revert Hm. generalize (nth (Z.to_nat (month dt - 1)) month_abbr "").
    intros b Hb. cbn in Hb.
    repeat (apply elem_of_cons in Hb as [-> | Hb]; [reflexivity |]).
    by apply elem_of_nil in Hb. }
  rewrite !PyFacts.length_append, Ha, Hb. reflexivity.
Qed.

Lemma date_token_shape_witness :
  ∃ a b, a ∈ day_abbr ∧ b ∈ month_abbr ∧
    date_token C_locale sample_date =
      str_of (a +:+ "-" +:+ b +:+ "-" +:+ two_digits (day sample_date) +:+
              "-" +:+ two_digits (hour sample_date)) ∧
    length (date_token C_locale sample_date) = 13.
Proof.
  apply (date_token_shape sample_date). cbn. lia.
Defined.

Lemma lstrip_first (s : string) (c : ascii) :
  first_char (lstrip s) = Some c → is_space c = false.
Proof.
  induction s as [|a s IH]; [done |]. cbn [lstrip].
  destruct (is_space a) eqn:Ha; [done |]. by intros [= <-].
Qed.

Lemma rstrip_first (s : string) (c : ascii) :
  first_char (rstrip s) = Some c → first_char s = Some c.
Proof.
  destruct s as [|a s]; [done |]. cbn [rstrip first_char].
  destruct (rstrip s); [by destruct (is_space a) | done].
Qed.

Lemma rstrip_last (s : string) (c : ascii) :
  last_char (rstrip s) = Some c → is_space c = false.
Proof.
  induction s as [|a s IH]; [done |]. cbn [rstrip].
  destruct (rstrip s) as [|b r] eqn:Hr.
  - destruct (is_space a) eqn:Ha; [done |]. by intros [= <-].
  - cbn [last_char] in *. destruct (last_char r) as [d|]; [done |].
    intros [= <-]. by apply IH.
Qed.

Lemma strip_no_space (s : string) (c : ascii) :
  first_char (strip s) = Some c ∨ last_char (strip s) = Some c →
  is_space c = false.
Proof.
  unfold strip. intros [Hf | Hl].
  - by apply rstrip_first, lstrip_first in Hf.
  - by apply rstrip_last in Hl.
Qed.

(** X17.  What the second fixture hands to the test is the output of the
    describe process and of the token process with the white space at
    both ends removed (the newline the CLI prints included): neither
    value starts or ends with a white-space character, and both are the
    outputs of the second and third process the run started. *)
Theorem fixture_values_are_stripped (E : environment) (service_name : string)
    (w w' : world) (service_url auth_token : string) :
  before_yield (service_url_auth_token E) service_name w
    = (w', Returned (service_url, auth_token)) →
  service_url =
    strip (out (spawn E (length (processes w))
                  (Argv (describe_command E service_name)))) ∧
  auth_token =
    strip (out (spawn E (S (length (processes w))) (Argv token_command))) ∧
  ∀ c, first_char service_url = Some c ∨ last_char service_url = Some c ∨
       first_char auth_token = Some c ∨ last_char auth_token = Some c →
       is_space c = false.
Proof.
  rewrite url_token_eq. cbv zeta.
  destruct (negb _); [done |]. destruct (decode _); [| done].
  destruct (negb _); [done |]. destruct (decode _); [| done].
  intros [= _ <- <-]. split; [done |]. split; [done |].
  intros c [H | [H | [H | H]]]; eapply strip_no_space; eauto.
Qed.

Lemma fixture_values_are_stripped_witness :
  "https://svc.run.app" =
    strip (out (spawn (steady "  https://svc.run.app " None) (length (processes empty_world))
                  (Argv (describe_command (steady "  https://svc.run.app " None) "svc")))).
Proof.
  exact (proj1 (fixture_values_are_stripped (steady "  https://svc.run.app " None) "svc" empty_world _ "https://svc.run.app" "https://svc.run.app"
                  eq_refl)).
Defined.

End VerifierBehaviour.
